(** * Batchnorm-inference client example: instance selection and execution

    A shallow embedding of [main] of
    [client_example/13_batchnorm/batchnorm_infer_nhwc.cpp]: the set-up of the
    problem descriptor, the profiling loop over the registered device
    operation instances, and the untimed run of the best instance.

    Conventions.
    - [ck::index_t] and [int] values are [Z]; the problem sizes of this
      program are small constants, far below 2^31 (see [numXYElement_value]).
    - [std::size_t] arithmetic is [Z] reduced modulo 2^64.
    - [float] is an IEEE-754 binary32 value and [double] a binary64 value,
      both carried by [spec_float] of the Standard Library; comparison and
      division are the library's executable IEEE operations.
      The properties below hold for every [spec_float]; the inputs of the
      examples are valid binary32 values.
    - [std::array] is a [list]; an index outside the array is undefined
      behaviour in C++ and is [None] here.
    - the device operation instances are external objects: their answers may
      depend on a device state [World] that [main] threads through its calls.
      What [main] does with them is recorded as a trace of events.
    - the device buffers are known to [main] by their addresses only; the
      calls of [hipMalloc], [hipMemset] and [hipFree] leave no event. *)

From Stdlib Require Import ZArith Lia Bool String.
From Stdlib Require Import Floats.SpecFloat.
From stdpp Require Import base list.

Local Open Scope Z_scope.

(** ** Floating point *)

Module F32.
Definition prec : Z := 24.
Definition emax : Z := 128.

Definition ltb (a b : spec_float) : bool := SFltb a b.
Definition eqb (a b : spec_float) : bool := SFeqb a b.
Definition valid (a : spec_float) : bool := valid_binary prec emax a.

(** [std::numeric_limits<float>::max()] = (2^24 - 1) * 2^104. *)
Definition max : spec_float := S754_finite false 16777215 104.

Definition zero : spec_float := S754_zero false.

(** Conversion of a [double] to [float], round to nearest even. *)
Definition of_double (d : spec_float) : spec_float :=
  match d with
  | S754_finite s m e => binary_round prec emax s m e
  | _ => d
  end.

(** A decimal literal [n/10^k] read as a [float]. *)
Definition of_decimal (n : Z) (k : positive) : spec_float :=
  SFdiv prec emax (binary_normalize prec emax n 0 false)
                  (binary_normalize prec emax (Z.pow_pos 10 k) 0 false).
End F32.

Module F64.
Definition prec : Z := 53.
Definition emax : Z := 1024.

Definition div (a b : spec_float) : spec_float := SFdiv prec emax a b.
Definition mul (a b : spec_float) : spec_float := SFmul prec emax a b.

(** Integer to [double] conversion. *)
Definition of_Z (n : Z) : spec_float := binary_normalize prec emax n 0 false.

(** Promotion of a [float] to [double]: the value is kept, the mantissa is
    re-aligned to 53 bits. *)
Definition of_float (f : spec_float) : spec_float :=
  match f with
  | S754_finite s m e => binary_round prec emax s m e
  | _ => f
  end.
End F64.

Abbreviation float := spec_float.
Abbreviation double := spec_float.

(** ** Problem description (lines 14-25, 45-58) *)

Definition sizeof_XDataType : Z := 4.
Definition sizeof_YDataType : Z := 4.
Definition sizeof_ScaleDataType : Z := 4.
Definition sizeof_BiasDataType : Z := 4.
Definition sizeof_MeanVarDataType : Z := 4.

Definition Rank : Z := 4.
Definition NumBatchNormReduceDim : Z := 3.

(** [epsilon = std::numeric_limits<float>::epsilon()] = 2^-23, as a double. *)
Definition epsilon : double := S754_finite false 4503599627370496 (-75).

Definition xyLengths : list Z := [16; 8; 128; 256].
Definition xyStrides : list Z := [8 * 128 * 256; 128 * 256; 256; 1].
Definition scaleBiasMeanVarLengths : list Z := [256].
Definition scaleBiasMeanVarStrides : list Z := [1].
Definition reduceDims : list Z := [0; 1; 2].
Definition invariantDims : list Z := [3].

(** [std::accumulate(first, last, 1, std::multiplies<ck::index_t>())]. *)
Definition accumulate_mul (l : list Z) : Z := fold_left Z.mul l 1.

Definition numXYElement : Z := accumulate_mul xyLengths.
Definition numScaleBiasMeanVarElement : Z := accumulate_mul scaleBiasMeanVarLengths.

(** ** Aligned strides (lines 71-80) *)

(** [a[i]] for an [int] index; outside the array the access is undefined. *)
Definition at_ {A} (a : list A) (i : Z) : option A :=
  if i <? 0 then None else a !! Z.to_nat i.

(** [a[i] = v] for an [int] index. *)
Definition set_at {A} (a : list A) (i : Z) (v : A) : option (list A) :=
  if (0 <=? i) && (i <? Z.of_nat (length a)) then Some (<[Z.to_nat i := v]> a)
  else None.

(** [assert(xyLengths[dim] == scaleBiasMeanVarLengths[i])]: with [NDEBUG] the
    macro expands to nothing and its operand is not evaluated; otherwise a
    false operand aborts the program. *)
Definition assert_same_length (ndebug : bool) (lengths sbmvLengths : list Z)
    (dim i : Z) : option unit :=
  if ndebug then Some tt
  else
    xl ← at_ lengths dim;
    sl ← at_ sbmvLengths i;
    if xl =? sl then Some tt else None.

(** The loop [for(auto dim : invariantDims) { assert(..); aligned[dim] =
    strides[i]; i++; }], over any arrays of the shapes the program declares.
    [None] is an out-of-range access or a failed assertion. *)
Fixpoint align_loop (ndebug : bool) (lengths sbmvLengths sbmvStrides : list Z)
    (dims : list Z) (i : Z) (aligned : list Z) : option (list Z) :=
  match dims with
  | [] => Some aligned
  | dim :: rest =>
      _ ← assert_same_length ndebug lengths sbmvLengths dim i;
      st ← at_ sbmvStrides i;
      aligned' ← set_at aligned dim st;
      align_loop ndebug lengths sbmvLengths sbmvStrides rest (i + 1) aligned'
  end.

(** [std::array<ck::index_t, Rank> aligned_scaleBiasMeanVarStrides{0}]
    followed by the loop with [int i = 0]. *)
Definition align_strides (ndebug : bool) (rank : Z)
    (lengths sbmvLengths sbmvStrides dims : list Z) : option (list Z) :=
  align_loop ndebug lengths sbmvLengths sbmvStrides dims 0
             (replicate (Z.to_nat rank) 0).

Definition aligned_scaleBiasMeanVarStrides (ndebug : bool) : option (list Z) :=
  align_strides ndebug Rank xyLengths scaleBiasMeanVarLengths
                scaleBiasMeanVarStrides invariantDims.

(** ** Device memory and arguments *)

(** The six [SimpleDeviceMem] objects of lines 60-65: [GetDeviceBuffer()] of
    each, as returned by [hipMalloc] (0 is the null pointer). *)
Record DeviceBuffers := {
  x : Z; y : Z; scale : Z; bias : Z; mean : Z; variance : Z
}.

(** [Normalize{epsilon}]. *)
Record Normalize := { epsilon_ : double }.

(** What [MakeArgumentPointer] is called with; the argument object an instance
    builds is identified with the values it is built from. *)
Record Argument := {
  arg_lengths : list Z;
  arg_inStrides : list (list Z);
  arg_outStrides : list (list Z);
  arg_in_dev_buffers : list Z;
  arg_out_dev_buffers : list Z;
  arg_elementwise_op : Normalize
}.

(** Modelled from the spec: [StreamConfig] is declared in a header outside
    this file; the spec gives [executionConfig{queue handle, timingEnabled}].
    [None] is the null stream. *)
Record StreamConfig := { stream_id_ : option Z; time_kernel_ : bool }.

(** The value of [invoker_ptr->Run(..)]: the average time in milliseconds, or
    an exception leaving the call. *)
Inductive RunOutcome :=
| Elapsed (ave_time : float)
| Throws.

(** The two call sites of the instance interface in [main]. *)
Inductive Phase := Profiling | Production.

(** Lines written to [std::cout]. *)
Inductive Line :=
| LFound (n : nat)
| LRunAll
| LPerf (ave_time gb_per_sec : float) (op_name : string)
| LUnsupported (op_name : string)
| LBestPerf (best_ave_time best_gb_per_sec : float) (best_op_name : string)
| LRunBest (op_name : string)
| LDone.

(** What [main] does that is visible from outside, in program order. *)
Inductive Event :=
| EMakeArgument (ph : Phase) (i : nat) (a : Argument)
| EMakeInvoker (ph : Phase) (i : nat)
| EIsSupported (ph : Phase) (i : nat) (a : Argument) (r : bool)
| ERun (ph : Phase) (i : nat) (a : Argument) (cfg : StreamConfig) (r : RunOutcome)
| EOut (l : Line).

(** How a computation ends: normally, by an exception nobody catches (which
    leaves [main] and terminates the process), or by an abort (failed
    assertion, access outside an array). *)
Inductive Outcome (A : Type) :=
| Normal (a : A)
| Uncaught
| Aborted.
Arguments Normal {A} a.
Arguments Uncaught {A}.
Arguments Aborted {A}.

(** The locals [found], [best_op_id], [best_op_name], [best_ave_time] and
    [best_gb_per_sec] of lines 93-97. *)
Record Best := {
  found : bool;
  best_op_id : Z;
  best_op_name : string;
  best_ave_time : float;
  best_gb_per_sec : float
}.

Definition init_best : Best :=
  {| found := false; best_op_id := -1; best_op_name := EmptyString;
     best_ave_time := F32.max; best_gb_per_sec := F32.zero |}.

(** Lines 128-131, in [std::size_t]. *)
Definition num_bytes : Z :=
  (numXYElement * (sizeof_XDataType + sizeof_YDataType) +
   numScaleBiasMeanVarElement *
     (sizeof_ScaleDataType + sizeof_BiasDataType +
      sizeof_MeanVarDataType + sizeof_MeanVarDataType)) mod 2 ^ 64.

(** Line 133: [float gb_per_sec = num_bytes / 1.E6 / ave_time], the two
    divisions in [double] and the result narrowed to [float]. *)
Definition gb_per_sec_of (bytes : Z) (ave_time : float) : float :=
  F32.of_double
    (F64.div (F64.div (F64.of_Z bytes) (F64.of_Z 1000000)) (F64.of_float ave_time)).

(** The throughput as the specification writes it: the bytes moved divided
    by the product [10^6 * elapsed]. *)
Definition throughput_by_product (bytes : Z) (elapsed : float) : float :=
  F32.of_double
    (F64.div (F64.of_Z bytes) (F64.mul (F64.of_Z 1000000) (F64.of_float elapsed))).

(** Lines 106-119. *)
Definition profiling_argument (aligned : list Z) (m : DeviceBuffers) : Argument :=
  {| arg_lengths := xyLengths;
     arg_inStrides := [xyStrides; aligned; aligned; aligned; aligned];
     arg_outStrides := [xyStrides];
     arg_in_dev_buffers := [x m; mean m; variance m; scale m; bias m];
     arg_out_dev_buffers := [y m];
     arg_elementwise_op := {| epsilon_ := epsilon |} |}.

(** Lines 163-176. *)
Definition production_argument (aligned : list Z) (m : DeviceBuffers) : Argument :=
  {| arg_lengths := xyLengths;
     arg_inStrides := [xyStrides; aligned; aligned; aligned; aligned];
     arg_outStrides := [xyStrides];
     arg_in_dev_buffers := [x m; mean m; variance m; scale m; bias m];
     arg_out_dev_buffers := [y m];
     arg_elementwise_op := {| epsilon_ := epsilon |} |}.

(** [StreamConfig{nullptr, true}] and [StreamConfig{nullptr, false}]. *)
Definition timed : StreamConfig := {| stream_id_ := None; time_kernel_ := true |}.
Definition untimed : StreamConfig := {| stream_id_ := None; time_kernel_ := false |}.

Section Main.

(** The state of the device and of the instance objects. *)
Variable World : Type.

(** Modelled from the spec: the instance interface ([DeviceElementwise] and
    its invoker) is declared in a header outside this file; the spec gives the
    capability set construct-argument, check-support, construct-invoker,
    get-name. The verdict and the run are answers of the outside world. *)
Record DeviceOp := {
  GetTypeString : string;
  IsSupportedArgument : Argument -> World -> bool * World;
  Run : Argument -> StreamConfig -> World -> RunOutcome * World
}.

Record Res (A : Type) := {
  res : Outcome A;
  world : World;
  trace : list Event
}.
Arguments res {A} r.
Arguments world {A} r.
Arguments trace {A} r.

Definition M (A : Type) : Type := World -> Res A.

(** [after tr r]: [r], reached after the events [tr]. *)
Definition after {A} (tr : list Event) (r : Res A) : Res A :=
  {| res := res r; world := world r; trace := tr ++ trace r |}.

Definition ret {A} (a : A) : M A :=
  fun w => {| res := Normal a; world := w; trace := [] |}.

Definition bind {A B} (m : M A) (k : A -> M B) : M B :=
  fun w =>
    let r := m w in
    match res r with
    | Normal a => after (trace r) (k a (world r))
    | Uncaught => {| res := Uncaught; world := world r; trace := trace r |}
    | Aborted => {| res := Aborted; world := world r; trace := trace r |}
    end.

#[local] Instance M_ret : MRet M := @ret.
#[local] Instance M_bind : MBind M := fun A B k m => bind m k.

Definition emit (e : Event) : M unit :=
  fun w => {| res := Normal tt; world := w; trace := [e] |}.

Definition out (l : Line) : M unit := emit (EOut l).

(** An array access or an assertion that must succeed. *)
Definition defined {A} (o : option A) : M A :=
  fun w =>
    {| res := match o with Some a => Normal a | None => Aborted end;
       world := w; trace := [] |}.

Definition call_IsSupportedArgument (ph : Phase) (i : nat) (op : DeviceOp)
    (a : Argument) : M bool :=
  fun w =>
    let '(r, w') := IsSupportedArgument op a w in
    {| res := Normal r; world := w'; trace := [EIsSupported ph i a r] |}.

Definition call_Run (ph : Phase) (i : nat) (op : DeviceOp) (a : Argument)
    (cfg : StreamConfig) : M float :=
  fun w =>
    let '(r, w') := Run op a cfg w in
    {| res := match r with Elapsed t => Normal t | Throws => Uncaught end;
       world := w'; trace := [ERun ph i a cfg r] |}.

(** The body of the profiling loop, lines 104-150. *)
Definition profile_body (aligned : list Z) (m : DeviceBuffers)
    (i : nat) (op_ptr : DeviceOp) (b : Best) : M Best :=
  let argument := profiling_argument aligned m in
  emit (EMakeArgument Profiling i argument);;
  emit (EMakeInvoker Profiling i);;
  let op_name := GetTypeString op_ptr in
  ok ← call_IsSupportedArgument Profiling i op_ptr argument;
  if ok : bool then
    ave_time ← call_Run Profiling i op_ptr argument timed;
    let gb_per_sec := gb_per_sec_of num_bytes ave_time in
    out (LPerf ave_time gb_per_sec op_name);;
    if F32.ltb ave_time (best_ave_time b) then
      mret {| found := true;
              best_op_id := Z.of_nat i;
              best_op_name := op_name;
              best_ave_time := ave_time;
              best_gb_per_sec := gb_per_sec |}
    else mret b
  else
    out (LUnsupported op_name);;
    mret b.

(** [for(int i = 0; i < op_ptrs.size(); ++i)], lines 102-151; [ops] is what
    is left of [op_ptrs] from index [i] on. *)
Fixpoint profile_loop (aligned : list Z) (m : DeviceBuffers)
    (i : nat) (ops : list DeviceOp) (b : Best) : M Best :=
  match ops with
  | [] => mret b
  | op_ptr :: rest =>
      b' ← profile_body aligned m i op_ptr b;
      profile_loop aligned m (S i) rest b'
  end.

(** Lines 88-151: the selection. *)
Definition select (aligned : list Z) (m : DeviceBuffers)
    (op_ptrs : list DeviceOp) : M Best :=
  out (LFound (length op_ptrs));;
  out LRunAll;;
  profile_loop aligned m 0 op_ptrs init_best.

(** Lines 153-186: the run of the best instance. *)
Definition run_best (aligned : list Z) (m : DeviceBuffers)
    (op_ptrs : list DeviceOp) (b : Best) : M unit :=
  if found b then
    out (LBestPerf (best_ave_time b) (best_gb_per_sec b) (best_op_name b));;
    op_ptr ← defined (at_ op_ptrs (best_op_id b));
    let id := Z.to_nat (best_op_id b) in
    out (LRunBest (GetTypeString op_ptr));;
    let argument := production_argument aligned m in
    emit (EMakeArgument Production id argument);;
    emit (EMakeInvoker Production id);;
    ok ← call_IsSupportedArgument Production id op_ptr argument;
    (if ok : bool then
       _ ← call_Run Production id op_ptr argument untimed; mret tt
     else mret tt);;
    out LDone
  else mret tt.

(** [main]; the value is the exit status. *)
Definition main (ndebug : bool) (m : DeviceBuffers) (op_ptrs : list DeviceOp)
    : M Z :=
  aligned ← defined (aligned_scaleBiasMeanVarStrides ndebug);
  b ← select aligned m op_ptrs;
  run_best aligned m op_ptrs b;;
  mret 0.

End Main.

Arguments res {World A} r.
Arguments world {World A} r.
Arguments trace {World A} r.
Arguments GetTypeString {World} d.
Arguments IsSupportedArgument {World} d a w.
Arguments Run {World} d a cfg w.
Arguments Build_DeviceOp {World}.

(** A stub instance with a fixed name, verdict and outcome, on any device. *)
Definition stub {World} (name : string) (supported : bool) (r : RunOutcome)
    : DeviceOp World :=
  {| GetTypeString := name;
     IsSupportedArgument := fun _ w => (supported, w);
     Run := fun _ _ w => (r, w) |}.

(** Lines 138-145 as a function of the running best. *)
Definition update_best (i : nat) (op_name : string) (ave_time : float) (b : Best)
    : Best :=
  if F32.ltb ave_time (best_ave_time b) then
    {| found := true;
       best_op_id := Z.of_nat i;
       best_op_name := op_name;
       best_ave_time := ave_time;
       best_gb_per_sec := gb_per_sec_of num_bytes ave_time |}
  else b.

(** The events of one turn of the profiling loop, by what the instance
    answers. *)
Definition turn_prefix (a : Argument) (i : nat) : list Event :=
  [EMakeArgument Profiling i a; EMakeInvoker Profiling i].

Definition turn_unsupported (a : Argument) (i : nat) (name : string) : list Event :=
  turn_prefix a i ++ [EIsSupported Profiling i a false; EOut (LUnsupported name)].

Definition turn_profiled (a : Argument) (i : nat) (name : string) (t : float)
    : list Event :=
  turn_prefix a i ++
  [EIsSupported Profiling i a true; ERun Profiling i a timed (Elapsed t);
   EOut (LPerf t (gb_per_sec_of num_bytes t) name)].

Definition turn_thrown (a : Argument) (i : nat) : list Event :=
  turn_prefix a i ++
  [EIsSupported Profiling i a true; ERun Profiling i a timed Throws].

(** ** Vocabulary of the properties *)

(** [guard_ok prev e]: if [e] is a call of [Run], the event just before it is
    a call of [IsSupportedArgument] of the same instance on the same argument
    at the same call site, and it answered [true]. *)
Definition guard_ok (prev : option Event) (e : Event) : Prop :=
  match e with
  | ERun ph i a _ _ => prev = Some (EIsSupported ph i a true)
  | _ => True
  end.

Fixpoint guarded_from (prev : option Event) (tr : list Event) : Prop :=
  match tr with
  | [] => True
  | e :: tr' => guard_ok prev e /\ guarded_from (Some e) tr'
  end.

Definition guarded (tr : list Event) : Prop :=
  forall pre post ph i a cfg r,
    tr = pre ++ ERun ph i a cfg r :: post ->
    exists pre', pre = pre' ++ [EIsSupported ph i a true].

Definition event_index (e : Event) : option nat :=
  match e with
  | EMakeArgument _ i _ | EMakeInvoker _ i | EIsSupported _ i _ _
  | ERun _ i _ _ _ => Some i
  | EOut _ => None
  end.

Definition event_phase (e : Event) : option Phase :=
  match e with
  | EMakeArgument ph _ _ | EMakeInvoker ph _ | EIsSupported ph _ _ _
  | ERun ph _ _ _ _ => Some ph
  | EOut _ => None
  end.

(** An event of the profiling loop over the instances [lo .. hi-1]. *)
Definition loop_event (al : list Z) (m : DeviceBuffers) (lo hi : nat) (e : Event)
    : Prop :=
  match e with
  | EMakeArgument ph j a =>
      ph = Profiling /\ a = profiling_argument al m /\ (lo <= j < hi)%nat
  | EMakeInvoker ph j => ph = Profiling /\ (lo <= j < hi)%nat
  | EIsSupported ph j a _ =>
      ph = Profiling /\ a = profiling_argument al m /\ (lo <= j < hi)%nat
  | ERun ph j a cfg _ =>
      ph = Profiling /\ a = profiling_argument al m /\ cfg = timed /\
      (lo <= j < hi)%nat
  | EOut (LPerf _ _ _) | EOut (LUnsupported _) => True
  | EOut _ => False
  end.

(** An event of the run of the best instance [b]. *)
Definition best_event (al : list Z) (m : DeviceBuffers) (b : Best) (e : Event)
    : Prop :=
  match e with
  | EMakeArgument ph j a =>
      ph = Production /\ a = production_argument al m /\ j = Z.to_nat (best_op_id b)
  | EMakeInvoker ph j => ph = Production /\ j = Z.to_nat (best_op_id b)
  | EIsSupported ph j a _ =>
      ph = Production /\ a = production_argument al m /\ j = Z.to_nat (best_op_id b)
  | ERun ph j a cfg _ =>
      ph = Production /\ a = production_argument al m /\ cfg = untimed /\
      j = Z.to_nat (best_op_id b)
  | EOut (LBestPerf t g n) =>
      t = best_ave_time b /\ g = best_gb_per_sec b /\ n = best_op_name b
  | EOut (LRunBest _) | EOut LDone => True
  | EOut _ => False
  end.

(** [follows verdict elapsed tr]: in [tr] every instance [i] answers the
    support check with [verdict i] and, when run with timing, returns
    [elapsed i]. *)
Definition follows (verdict : nat -> bool) (elapsed : nat -> float)
    (tr : list Event) : Prop :=
  Forall (fun e =>
            match e with
            | EIsSupported Profiling i _ r => r = verdict i
            | ERun Profiling i _ _ r => r = Elapsed (elapsed i)
            | _ => True
            end) tr.

(** The selection computed from the names, the verdicts and the times
    alone. *)
Fixpoint replay (verdict : nat -> bool) (elapsed : nat -> float) (i : nat)
    (names : list string) (b : Best) : Best :=
  match names with
  | [] => b
  | name :: rest =>
      replay verdict elapsed (S i) rest
             (if verdict i then update_best i name (elapsed i) b else b)
  end.

Section Vocabulary.
Context {World : Type}.
Implicit Types (ops all : list (DeviceOp World)) (w : World) (b : Best).
Implicit Types (seen : nat -> float -> Prop).

Definition best_prefix (op : DeviceOp World) (a : Argument) b : list Event :=
  [EOut (LBestPerf (best_ave_time b) (best_gb_per_sec b) (best_op_name b));
   EOut (LRunBest (GetTypeString op));
   EMakeArgument Production (Z.to_nat (best_op_id b)) a;
   EMakeInvoker Production (Z.to_nat (best_op_id b))].

(** [best_inv all seen b]: [b] is the running best once the instances with
    the measurements [seen] (index, time) have been profiled. *)
Record best_inv all seen b : Prop := {
  inv_lower : forall j t, seen j t -> F32.ltb t (best_ave_time b) = false;
  inv_none : found b = false -> b = init_best;
  inv_some : found b = true ->
    exists k op,
      best_op_id b = Z.of_nat k /\
      all !! k = Some op /\
      best_op_name b = GetTypeString op /\
      seen k (best_ave_time b) /\
      best_gb_per_sec b = gb_per_sec_of num_bytes (best_ave_time b) /\
      F32.ltb (best_ave_time b) F32.max = true /\
      (forall j t, seen j t -> F32.eqb t (best_ave_time b) = true -> (k <= j)%nat)
}.

(** The measurements of a selection: instance [j] was run with timing and
    returned [t]. *)
Definition measured al m ops w (j : nat) (t : float) : Prop :=
  In (ERun Profiling j (profiling_argument al m) timed (Elapsed t))
     (trace (select World al m ops w)).

Definition index_at_most (k : nat) (e : Event) : Prop :=
  forall j, event_index e = Some j -> (j <= k)%nat.

(** The selection returns the first of the fastest instances: something is
    found, the best index is that of an instance whose measured time is the
    best time, no instance was measured strictly faster, and no instance
    with an equal time has a smaller index. *)
Definition selects_first_minimum al m ops w : Prop :=
  exists b k,
    res (select World al m ops w) = Normal b /\
    found b = true /\
    best_op_id b = Z.of_nat k /\
    measured al m ops w k (best_ave_time b) /\
    (forall j t, measured al m ops w j t ->
       F32.ltb t (best_ave_time b) = false) /\
    (forall j t, measured al m ops w j t ->
       F32.eqb t (best_ave_time b) = true -> (k <= j)%nat).

End Vocabulary.

(** ** The scenario of the specification: three instances, all supported,
    with times 5.0 ms, 3.2 ms and 3.2 ms. *)

Definition scenario_buffers : DeviceBuffers :=
  {| x := 4096; y := 8192; scale := 12288; bias := 16384; mean := 20480;
     variance := 24576 |}.

Definition ms_5_0 : float := F32.of_decimal 50 1.
Definition ms_3_2 : float := F32.of_decimal 32 1.

Definition scenario_ops : list (DeviceOp unit) :=
  [stub "A" true (Elapsed ms_5_0); stub "B" true (Elapsed ms_3_2);
   stub "C" true (Elapsed ms_3_2)].

(** The array [aligned_scaleBiasMeanVarStrides] as [main] has it once the
    loop of lines 73-80 is over (see [aligned_scaleBiasMeanVarStrides_value]). *)
Definition aligned_in_main : list Z := [0; 0; 0; 1].

(** The run of the scenario. *)
Definition scenario_run : Res unit Z :=
  main unit false scenario_buffers scenario_ops tt.

(** The second scenario: the three instances all answer unsupported. *)
Definition unsupported_ops : list (DeviceOp unit) :=
  [stub "A" false (Elapsed ms_5_0); stub "B" false (Elapsed ms_3_2);
   stub "C" false (Elapsed ms_3_2)].

(** An instance whose verdict depends on the device state: supported at the
    first check, not afterwards. The state counts the checks made. *)
Definition flapping : DeviceOp nat :=
  {| GetTypeString := "X";
     IsSupportedArgument := fun _ n => (Nat.eqb n 0, S n);
     Run := fun _ _ n => (Elapsed ms_3_2, n) |}.

(** The first instance throws from [Run]; a second one is registered after
    it. *)
Definition throwing_ops : list (DeviceOp unit) :=
  [stub "A" true Throws; stub "B" true (Elapsed ms_3_2)].

(** An instance that counts its calls in the device state but always gives
    the same answers. *)
Definition counting (name : string) (t : float) : DeviceOp nat :=
  {| GetTypeString := name;
     IsSupportedArgument := fun _ n => (true, S n);
     Run := fun _ _ n => (Elapsed t, S n) |}.

Definition counting_ops : list (DeviceOp nat) :=
  [counting "A" ms_5_0; counting "B" ms_3_2; counting "C" ms_3_2].

Definition scenario_elapsed (i : nat) : float :=
  match i with O => ms_5_0 | _ => ms_3_2 end.

(** One supported instance whose measured time is the largest finite
    [float]. *)
Definition slowest_ops : list (DeviceOp unit) :=
  [stub "A" true (Elapsed F32.max)].

(** ** Observations on a trace *)

(** The instances whose support was checked in the profiling loop, in the
    order of the checks. *)
Definition checked_indices (tr : list Event) : list nat :=
  flat_map (fun e => match e with
                     | EIsSupported Profiling i _ _ => [i]
                     | _ => []
                     end) tr.

(** The names on the lines "Perf: ..." and "... does not support this
    problem", in the order they are printed. *)
Definition report_names (tr : list Event) : list string :=
  flat_map (fun e => match e with
                     | EOut (LPerf _ _ name) | EOut (LUnsupported name) => [name]
                     | _ => []
                     end) tr.

(** The calls of [Run] at line 182. *)
Definition production_runs (tr : list Event) : list Event :=
  flat_map (fun e => match e with
                     | ERun Production _ _ _ _ => [e]
                     | _ => []
                     end) tr.

(** An instance whose timed run returns a NaN. *)
Definition nan_ops : list (DeviceOp unit) :=
  [stub "A" true (Elapsed S754_nan); stub "B" true (Elapsed ms_3_2)].

(** The best instance throws when it is run without timing. The state counts
    the runs made. *)
Definition throws_untimed : DeviceOp nat :=
  {| GetTypeString := "Y";
     IsSupportedArgument := fun _ n => (true, n);
     Run := fun _ _ n => (match n with O => Elapsed ms_3_2 | _ => Throws end, S n) |}.

(** A supported instance between two unsupported ones. *)
Definition mixed_ops : list (DeviceOp unit) :=
  [stub "A" false (Elapsed ms_5_0); stub "B" true (Elapsed ms_3_2);
   stub "C" false (Elapsed ms_3_2)].

(** * Properties *)

Example aligned_scaleBiasMeanVarStrides_value ndebug :
  aligned_scaleBiasMeanVarStrides ndebug = Some aligned_in_main.
Proof. destruct ndebug; reflexivity. Qed.

Example reduce_dims_have_stride_0 :
  Forall (fun d => at_ aligned_in_main d = Some 0) reduceDims.
Proof. repeat constructor. Qed.

(** On the times of the scenario the throughput of line 133 is also what the
    single division by [10^6 * t] gives. *)
Example throughput_of_scenario :
  gb_per_sec_of num_bytes ms_5_0 = throughput_by_product num_bytes ms_5_0 /\
  gb_per_sec_of num_bytes ms_3_2 = throughput_by_product num_bytes ms_3_2 /\
  gb_per_sec_of num_bytes ms_3_2 = S754_finite false 10996458 (-20).
Proof. repeat split; vm_compute; reflexivity. Qed.

Example f32_literals :
  F32.of_decimal 50 1 = S754_finite false 10485760 (-21) /\
  F32.of_decimal 32 1 = S754_finite false 13421773 (-22) /\
  F32.valid F32.max = true.
Proof. repeat split; vm_compute; reflexivity. Qed.

(** ** Unfolding the loop *)

Section Unfold.
Context {World : Type}.
Implicit Types (ops : list (DeviceOp World)) (w : World) (b : Best).

Lemma profile_loop_nil al m i b w :
  profile_loop World al m i [] b w = {| res := Normal b; world := w; trace := [] |}.
Proof. reflexivity. Qed.

Lemma profile_loop_cons al m i op ops b w :
  profile_loop World al m i (op :: ops) b w =
  let a := profiling_argument al m in
  let name := GetTypeString op in
  match IsSupportedArgument op a w with
  | (false, w1) =>
      after World (turn_unsupported a i name)
            (profile_loop World al m (S i) ops b w1)
  | (true, w1) =>
      match Run op a timed w1 with
      | (Elapsed t, w2) =>
          after World (turn_profiled a i name t)
                (profile_loop World al m (S i) ops (update_best i name t b) w2)
      | (Throws, w2) =>
          {| res := Uncaught; world := w2; trace := turn_thrown a i |}
      end
  end.
Proof.
  cbn zeta.
  unfold profile_loop at 1; fold (profile_loop World al m).
  unfold mbind, M_bind, bind, profile_body, mbind, M_bind, bind,
    call_IsSupportedArgument, call_Run, out, emit, mret, M_ret, ret.
  cbn [res world trace].
  destruct (IsSupportedArgument op _ w) as [[|] w1]; cbn [res world trace].
  - destruct (Run op _ timed w1) as [[t|] w2]; cbn [res world trace].
    + unfold update_best.
      destruct (F32.ltb t (best_ave_time b)); reflexivity.
    + reflexivity.
  - reflexivity.
Qed.
End Unfold.

Section RunBest.
Context {World : Type}.
Implicit Types (ops : list (DeviceOp World)) (w : World) (b : Best).

Lemma run_best_not_found al m ops b w :
  found b = false ->
  run_best World al m ops b w = {| res := Normal tt; world := w; trace := [] |}.
Proof. intros H. unfold run_best. now rewrite H. Qed.

Lemma run_best_out_of_range al m ops b w :
  found b = true -> at_ ops (best_op_id b) = None ->
  run_best World al m ops b w =
  {| res := Aborted; world := w;
     trace := [EOut (LBestPerf (best_ave_time b) (best_gb_per_sec b)
                               (best_op_name b))] |}.
Proof.
  intros H1 H2. unfold run_best. rewrite H1.
  unfold mbind, M_bind, bind, defined, out, emit. cbn [res world trace].
  now rewrite H2.
Qed.

Lemma run_best_found al m ops b w op :
  found b = true -> at_ ops (best_op_id b) = Some op ->
  run_best World al m ops b w =
  let a := production_argument al m in
  let id := Z.to_nat (best_op_id b) in
  match IsSupportedArgument op a w with
  | (false, w1) =>
      {| res := Normal tt; world := w1;
         trace := best_prefix op a b ++
                  [EIsSupported Production id a false; EOut LDone] |}
  | (true, w1) =>
      match Run op a untimed w1 with
      | (Elapsed t, w2) =>
          {| res := Normal tt; world := w2;
             trace := best_prefix op a b ++
                      [EIsSupported Production id a true;
                       ERun Production id a untimed (Elapsed t); EOut LDone] |}
      | (Throws, w2) =>
          {| res := Uncaught; world := w2;
             trace := best_prefix op a b ++
                      [EIsSupported Production id a true;
                       ERun Production id a untimed Throws] |}
      end
  end.
Proof.
  intros H1 H2. cbn zeta. unfold run_best. rewrite H1.
  unfold mbind, M_bind, bind, defined, call_IsSupportedArgument, call_Run,
    out, emit, mret, M_ret, ret.
  cbn [res world trace]. rewrite H2. cbn [res world trace].
  destruct (IsSupportedArgument op _ w) as [[|] w1]; cbn [res world trace].
  - destruct (Run op _ untimed w1) as [[t|] w2]; reflexivity.
  - reflexivity.
Qed.

(** [select] is the loop after two lines of output. *)
Lemma select_unfold al m ops w :
  select World al m ops w =
  after World [EOut (LFound (length ops)); EOut LRunAll]
        (profile_loop World al m 0 ops init_best w).
Proof.
  unfold select, mbind, M_bind, bind, out, emit. cbn [res world trace].
  reflexivity.
Qed.

(** [main] is the selection followed, when it returns, by [run_best]. *)
Lemma main_unfold ndebug m ops w :
  main World ndebug m ops w =
  let r1 := select World aligned_in_main m ops w in
  match res r1 with
  | Normal b =>
      let r2 := run_best World aligned_in_main m ops b (world r1) in
      {| res := match res r2 with
                | Normal _ => Normal 0
                | Uncaught => Uncaught
                | Aborted => Aborted
                end;
         world := world r2;
         trace := trace r1 ++ trace r2 |}
  | Uncaught => {| res := Uncaught; world := world r1; trace := trace r1 |}
  | Aborted => {| res := Aborted; world := world r1; trace := trace r1 |}
  end.
Proof.
  cbn zeta.
  assert (Ha : aligned_scaleBiasMeanVarStrides ndebug = Some aligned_in_main)
    by (destruct ndebug; reflexivity).
  unfold main, mbind, M_bind, bind, defined, mret, M_ret, ret, after.
  rewrite Ha. cbn [res world trace app].
  destruct (res (select World aligned_in_main m ops w)) as [b| |];
    cbn [res world trace]; try reflexivity.
  destruct (res (run_best World aligned_in_main m ops b _));
    cbn [res world trace]; rewrite ?app_nil_r; reflexivity.
Qed.
End RunBest.

(** ** Every run is guarded by a support check *)

Lemma guarded_from_split prev tr pre e post :
  guarded_from prev tr -> tr = pre ++ e :: post ->
  guard_ok (match last pre with Some x => Some x | None => prev end) e.
Proof.
  revert prev tr. induction pre as [|x pre IH]; intros prev tr Hg ->.
  - simpl in *. tauto.
  - simpl in Hg. destruct Hg as [_ Hg].
    specialize (IH (Some x) _ Hg eq_refl).
    destruct pre as [|y pre']; [exact IH|].
    change (last (x :: y :: pre')) with (last (y :: pre')).
    destruct (last (y :: pre')) eqn:E; [exact IH|].
    apply last_None in E. discriminate.
Qed.

Lemma guarded_from_guarded tr : guarded_from None tr -> guarded tr.
Proof.
  intros Hg pre post ph i a cfg r Heq.
  pose proof (guarded_from_split _ _ _ _ _ Hg Heq) as H. simpl in H.
  destruct (last pre) as [x|] eqn:E; [|discriminate].
  injection H as ->. apply last_Some in E. exact E.
Qed.

Lemma guarded_app t1 t2 : guarded t1 -> guarded t2 -> guarded (t1 ++ t2).
Proof.
  intros G1 G2 pre post ph i a cfg r Heq.
  apply List.app_eq_app in Heq as [l [[-> Hl] | [-> Hl]]].
  - destruct l as [|e l].
    + simpl in Hl. symmetry in Hl.
      destruct (G2 [] _ _ _ _ _ _ Hl) as [pre' Hp].
      destruct pre'; discriminate.
    + simpl in Hl. injection Hl as <- ->.
      exact (G1 _ _ _ _ _ _ _ eq_refl).
  - destruct (G2 _ _ _ _ _ _ _ Hl) as [pre' ->].
    exists (t1 ++ pre'). now rewrite app_assoc.
Qed.

Lemma guarded_nil : guarded [].
Proof. apply guarded_from_guarded. exact I. Qed.

Section Guarded.
Context {World : Type}.
Implicit Types (ops : list (DeviceOp World)) (w : World) (b : Best).

Lemma profile_loop_guarded al m ops : forall i b w,
  guarded (trace (profile_loop World al m i ops b w)).
Proof.
  induction ops as [|op ops IH]; intros i b w.
  - apply guarded_nil.
  - rewrite profile_loop_cons. cbn zeta.
    destruct (IsSupportedArgument op _ w) as [[|] w1].
    + destruct (Run op _ timed w1) as [[t|] w2]; cbn [trace after].
      * apply guarded_app; [|apply IH].
        apply guarded_from_guarded. simpl. tauto.
      * apply guarded_from_guarded. simpl. tauto.
    + cbn [trace after]. apply guarded_app; [|apply IH].
      apply guarded_from_guarded. simpl. tauto.
Qed.

Lemma run_best_guarded al m ops b w :
  guarded (trace (run_best World al m ops b w)).
Proof.
  destruct (found b) eqn:Hf.
  - destruct (at_ ops (best_op_id b)) as [op|] eqn:Hop.
    + rewrite (run_best_found _ _ _ _ _ _ Hf Hop). cbn zeta.
      destruct (IsSupportedArgument op _ w) as [[|] w1].
      * destruct (Run op _ untimed w1) as [[t|] w2]; cbn [trace];
          apply guarded_from_guarded; simpl; tauto.
      * cbn [trace]. apply guarded_from_guarded; simpl; tauto.
    + rewrite (run_best_out_of_range _ _ _ _ _ Hf Hop). cbn [trace].
      apply guarded_from_guarded; simpl; tauto.
  - rewrite (run_best_not_found _ _ _ _ _ Hf). apply guarded_nil.
Qed.

Lemma main_guarded ndebug m ops w :
  guarded (trace (main World ndebug m ops w)).
Proof.
  rewrite main_unfold. cbn zeta.
  assert (Hs : guarded (trace (select World aligned_in_main m ops w))).
  { rewrite select_unfold. cbn [trace after]. apply guarded_app.
    - apply guarded_from_guarded; simpl; tauto.
    - apply profile_loop_guarded. }
  destruct (res (select World aligned_in_main m ops w)) as [b| |];
    cbn [trace]; try exact Hs.
  apply guarded_app; [exact Hs|apply run_best_guarded].
Qed.
End Guarded.

(** ** The order of [float] *)

Lemma SFcompare_finite_lt s m1 e1 m2 e2 :
  SFcompare (S754_finite s m1 e1) (S754_finite s m2 e2) = Some Lt <->
  if s then (e2 < e1 \/ (e1 = e2 /\ (m2 < m1)%positive))
  else (e1 < e2 \/ (e1 = e2 /\ (m1 < m2)%positive)).
Proof.
  simpl. change (Pos.compare_cont Eq m1 m2) with (Pos.compare m1 m2).
  destruct s; destruct (Z.compare_spec e1 e2); destruct (Pos.compare_spec m1 m2);
    simpl; split; intros Hc; try discriminate; try reflexivity; try lia.
Qed.

Lemma SFcompare_finite_eq s m1 e1 m2 e2 :
  SFcompare (S754_finite s m1 e1) (S754_finite s m2 e2) = Some Eq <->
  e1 = e2 /\ m1 = m2.
Proof.
  simpl. change (Pos.compare_cont Eq m1 m2) with (Pos.compare m1 m2).
  destruct s; destruct (Z.compare_spec e1 e2); destruct (Pos.compare_spec m1 m2);
    simpl; split; intros Hc; try discriminate; try reflexivity; try lia;
    try (split; congruence).
Qed.

Lemma ltb_Lt a b : F32.ltb a b = true <-> SFcompare a b = Some Lt.
Proof.
  unfold F32.ltb, SFltb. destruct (SFcompare a b) as [[| |]|]; split;
    intros H; try discriminate; reflexivity.
Qed.

Lemma eqb_Eq a b : F32.eqb a b = true <-> SFcompare a b = Some Eq.
Proof.
  unfold F32.eqb, SFeqb. destruct (SFcompare a b) as [[| |]|]; split;
    intros H; try discriminate; reflexivity.
Qed.

Lemma ltb_irrefl a : F32.ltb a a = false.
Proof.
  destruct (F32.ltb a a) eqn:E; [|reflexivity].
  apply ltb_Lt in E. destruct a as [[|]|[|]| |s m e]; try discriminate.
  apply SFcompare_finite_lt in E. destruct s; lia.
Qed.

Lemma ltb_trans a b c :
  F32.ltb a b = true -> F32.ltb b c = true -> F32.ltb a c = true.
Proof.
  rewrite !ltb_Lt.
  destruct a as [sa|sa| |sa ma ea], b as [sb|sb| |sb mb eb],
    c as [sc|sc| |sc mc ec];
    try (destruct sa); try (destruct sb); try (destruct sc);
    try (simpl; intros; congruence);
    rewrite !SFcompare_finite_lt; intros H1 H2; lia.
Qed.

Lemma eqb_ltb_trans a b c :
  F32.eqb a b = true -> F32.ltb b c = true -> F32.ltb a c = true.
Proof.
  rewrite eqb_Eq, !ltb_Lt.
  destruct a as [sa|sa| |sa ma ea], b as [sb|sb| |sb mb eb],
    c as [sc|sc| |sc mc ec];
    try (destruct sa); try (destruct sb); try (destruct sc);
    try (simpl; intros; congruence);
    rewrite ?SFcompare_finite_lt, ?SFcompare_finite_eq;
    try (intros [-> ->] H2; exact H2);
    try (intros [-> ->]; simpl; intros; congruence).
Qed.

(** ** The running best *)

Section BestInvariant.
Context {World : Type}.
Implicit Types (ops all : list (DeviceOp World)) (w : World) (b : Best).
Implicit Types (seen : nat -> float -> Prop).

Lemma best_inv_ext all seen seen' b :
  (forall j t, seen j t <-> seen' j t) ->
  best_inv all seen b -> best_inv all seen' b.
Proof.
  intros Hext [H1 H2 H3]. split.
  - intros j t Hs. apply (H1 j t). now apply Hext.
  - exact H2.
  - intros Hf. destruct (H3 Hf) as (k & op & ? & ? & ? & ? & ? & ? & Hm).
    exists k, op. repeat split; try assumption.
    + now apply Hext.
    + intros j t Hs. apply (Hm j t). now apply Hext.
Qed.

Lemma best_inv_init all : best_inv all (fun _ _ => False) init_best.
Proof. split; [tauto|reflexivity|discriminate]. Qed.

Lemma ltb_false_of_max b all seen :
  best_inv all seen b -> found b = false -> best_ave_time b = F32.max.
Proof. intros [_ H _] Hf. now rewrite (H Hf). Qed.

Lemma best_below_max all seen b t :
  best_inv all seen b -> F32.ltb t (best_ave_time b) = true ->
  F32.ltb t F32.max = true.
Proof.
  intros Hinv Hlt. destruct (found b) eqn:Hf.
  - destruct (inv_some _ _ _ Hinv Hf) as (k & op & _ & _ & _ & _ & _ & Hmax & _).
    exact (ltb_trans _ _ _ Hlt Hmax).
  - now rewrite <- (ltb_false_of_max _ _ _ Hinv Hf).
Qed.

Lemma update_best_inv all seen b i op t :
  best_inv all seen b ->
  all !! i = Some op ->
  (forall j t', seen j t' -> (j < i)%nat) ->
  best_inv all (fun j t' => seen j t' \/ (j = i /\ t' = t))
           (update_best i (GetTypeString op) t b).
Proof.
  intros Hinv Hop Hlt. unfold update_best.
  destruct (F32.ltb t (best_ave_time b)) eqn:Hcmp.
  - (* the new time is strictly better *)
    split; cbn [found best_op_id best_op_name best_ave_time best_gb_per_sec].
    + intros j t' [Hs | [-> ->]].
      * destruct (F32.ltb t' t) eqn:E; [|reflexivity].
        rewrite <- (inv_lower _ _ _ Hinv _ _ Hs).
        symmetry. exact (ltb_trans _ _ _ E Hcmp).
      * apply ltb_irrefl.
    + discriminate.
    + intros _. exists i, op. repeat split; try assumption.
      * right. split; reflexivity.
      * exact (best_below_max _ _ _ _ Hinv Hcmp).
      * intros j t' [Hs | [-> _]] He; [|lia].
        pose proof (eqb_ltb_trans _ _ _ He Hcmp) as Hc.
        rewrite (inv_lower _ _ _ Hinv _ _ Hs) in Hc. discriminate.
  - (* the running best is kept *)
    split.
    + intros j t' [Hs | [-> ->]]; [exact (inv_lower _ _ _ Hinv _ _ Hs)|exact Hcmp].
    + exact (inv_none _ _ _ Hinv).
    + intros Hf.
      destruct (inv_some _ _ _ Hinv Hf) as (k & op' & ? & ? & ? & Hk & ? & ? & Hm).
      exists k, op'. repeat split; try assumption.
      * now left.
      * intros j t' [Hs | [-> _]] He; [exact (Hm _ _ Hs He)|].
        specialize (Hlt _ _ Hk). lia.
Qed.

(** Membership of a profiled measurement in the events of one turn. *)
Lemma In_run_turn_profiled a i name t j a' cfg r :
  In (ERun Profiling j a' cfg r) (turn_profiled a i name t) <->
  j = i /\ a' = a /\ cfg = timed /\ r = Elapsed t.
Proof.
  unfold turn_profiled, turn_prefix. simpl. split.
  - intros [H|[H|[H|[H|[H|[]]]]]]; try discriminate.
    injection H as <- <- <- <-. tauto.
  - intros (-> & -> & -> & ->). tauto.
Qed.

Lemma In_run_turn_unsupported a i name ph j a' cfg r :
  ~ In (ERun ph j a' cfg r) (turn_unsupported a i name).
Proof.
  unfold turn_unsupported, turn_prefix. simpl.
  intros [H|[H|[H|[H|[]]]]]; discriminate.
Qed.

Lemma profile_loop_best_inv al m ops : forall pre i b w seen b',
  length pre = i ->
  (forall j t, seen j t -> (j < i)%nat) ->
  best_inv (pre ++ ops) seen b ->
  res (profile_loop World al m i ops b w) = Normal b' ->
  best_inv (pre ++ ops)
    (fun j t => seen j t \/
       In (ERun Profiling j (profiling_argument al m) timed (Elapsed t))
          (trace (profile_loop World al m i ops b w)))
    b'.
Proof.
  induction ops as [|op ops IH]; intros pre i b w seen b' Hlen Hlt Hinv Hres.
  - rewrite profile_loop_nil in *. cbn [res trace] in *. injection Hres as <-.
    eapply best_inv_ext; [|exact Hinv]. simpl. tauto.
  - rewrite profile_loop_cons in *. cbn zeta in *.
    assert (Hop : (pre ++ op :: ops) !! i = Some op).
    { rewrite <- Hlen. rewrite list_lookup_middle; reflexivity. }
    assert (Hpre : pre ++ op :: ops = (pre ++ [op]) ++ ops)
      by now rewrite <- app_assoc.
    assert (Hlen' : length (pre ++ [op]) = S i)
      by (rewrite length_app; simpl; lia).
    destruct (IsSupportedArgument op _ w) as [[|] w1].
    + destruct (Run op _ timed w1) as [[t|] w2]; cbn [res trace after] in *;
        [|discriminate].
      pose proof (update_best_inv _ _ _ _ _ t Hinv Hop Hlt) as Hinv'.
      rewrite Hpre in Hinv'.
      assert (Hlt' : forall j t', seen j t' \/ (j = i /\ t' = t) -> (j < S i)%nat).
      { intros j t' [Hs|[-> _]]; [specialize (Hlt _ _ Hs)|]; lia. }
      pose proof (IH (pre ++ [op]) (S i) _ w2 _ b' Hlen' Hlt' Hinv' Hres) as IH'.
      rewrite Hpre. eapply best_inv_ext; [|exact IH'].
      intros j t'. cbn beta. rewrite in_app_iff, In_run_turn_profiled.
      split.
      * intros [[Hs|[-> ->]]|Hin]; auto 6.
      * intros [Hs|[(-> & _ & _ & H)|Hin]]; auto.
        injection H as ->. auto.
    + cbn [res trace after] in *.
      assert (Hlt' : forall j t', seen j t' -> (j < S i)%nat).
      { intros j t' Hs. specialize (Hlt _ _ Hs). lia. }
      rewrite Hpre in Hinv.
      pose proof (IH (pre ++ [op]) (S i) b w1 seen b' Hlen' Hlt' Hinv Hres) as IH'.
      rewrite Hpre. eapply best_inv_ext; [|exact IH'].
      intros j t'. cbn beta. rewrite in_app_iff.
      pose proof (In_run_turn_unsupported (profiling_argument al m) i
                    (GetTypeString op) Profiling j (profiling_argument al m)
                    timed (Elapsed t')).
      tauto.
Qed.
End BestInvariant.

(** ** What the events of each phase look like *)

Lemma loop_event_weaken al m lo lo' hi e :
  (lo' <= lo)%nat -> loop_event al m lo hi e -> loop_event al m lo' hi e.
Proof.
  intros Hle. destruct e as [ph j a|ph j|ph j a r|ph j a cfg r|[]]; simpl;
    intuition lia.
Qed.

Ltac loop_step op w :=
  rewrite profile_loop_cons in *; cbn zeta in *;
  let w1 := fresh "w1" in
  let w2 := fresh "w2" in
  let t := fresh "t" in
  destruct (IsSupportedArgument op _ w) as [[|] w1];
  [destruct (Run op _ timed w1) as [[t|] w2]|];
  cbn [res world trace after] in *.

Section Events.
Context {World : Type}.
Implicit Types (ops : list (DeviceOp World)) (w : World) (b : Best).

Lemma profile_loop_events al m ops : forall i b w,
  Forall (loop_event al m i (i + length ops))
         (trace (profile_loop World al m i ops b w)).
Proof.
  induction ops as [|op ops IH]; intros i b w.
  - constructor.
  - assert (Hrest : forall b' w',
      Forall (loop_event al m i (i + length (op :: ops)))
             (trace (profile_loop World al m (S i) ops b' w'))).
    { intros b' w'. eapply Forall_impl; [apply IH|].
      intros e He. cbn [length]. rewrite Nat.add_succ_r.
      eapply loop_event_weaken; [|exact He]. lia. }
    loop_step op w.
    + apply Forall_app. split; [|apply Hrest].
      unfold turn_profiled, turn_prefix. cbn [length].
      repeat constructor; lia.
    + unfold turn_thrown, turn_prefix. cbn [length].
      repeat constructor; lia.
    + apply Forall_app. split; [|apply Hrest].
      unfold turn_unsupported, turn_prefix. cbn [length].
      repeat constructor; lia.
Qed.

Lemma select_events al m ops w e :
  In e (trace (select World al m ops w)) ->
  e = EOut (LFound (length ops)) \/ e = EOut LRunAll \/
  loop_event al m 0 (length ops) e.
Proof.
  rewrite select_unfold. cbn [trace after]. intros [<-|[<-|Hin]]; auto.
  right; right.
  pose proof (profile_loop_events al m ops 0%nat init_best w) as H.
  rewrite Forall_forall in H. apply H. now apply list_elem_of_In.
Qed.

Lemma run_best_events al m ops b w :
  Forall (best_event al m b) (trace (run_best World al m ops b w)).
Proof.
  destruct (found b) eqn:Hf.
  - destruct (at_ ops (best_op_id b)) as [op|] eqn:Hop.
    + rewrite (run_best_found _ _ _ _ _ _ Hf Hop). cbn zeta.
      destruct (IsSupportedArgument op _ w) as [[|] w1].
      * destruct (Run op _ untimed w1) as [[t|] w2]; cbn [trace];
          unfold best_prefix; repeat constructor.
      * cbn [trace]. unfold best_prefix; repeat constructor.
    + rewrite (run_best_out_of_range _ _ _ _ _ Hf Hop). cbn [trace].
      repeat constructor.
  - rewrite (run_best_not_found _ _ _ _ _ Hf). constructor.
Qed.

Lemma run_best_trace_found al m ops b w :
  trace (run_best World al m ops b w) <> [] -> found b = true.
Proof.
  destruct (found b) eqn:Hf; [reflexivity|].
  rewrite (run_best_not_found _ _ _ _ _ Hf). cbn [trace]. congruence.
Qed.

(** The events of [main] are those of the selection, then those of the run
    of the best instance. *)
Lemma main_trace ndebug m ops w :
  trace (main World ndebug m ops w) =
  trace (select World aligned_in_main m ops w) ++
  match res (select World aligned_in_main m ops w) with
  | Normal b =>
      trace (run_best World aligned_in_main m ops b
                      (world (select World aligned_in_main m ops w)))
  | _ => []
  end.
Proof.
  rewrite main_unfold. cbn zeta.
  destruct (res (select World aligned_in_main m ops w));
    cbn [trace]; rewrite ?app_nil_r; reflexivity.
Qed.

Lemma main_events ndebug m ops w e :
  In e (trace (main World ndebug m ops w)) ->
  In e (trace (select World aligned_in_main m ops w)) \/
  exists b, res (select World aligned_in_main m ops w) = Normal b /\
    found b = true /\
    In e (trace (run_best World aligned_in_main m ops b
                          (world (select World aligned_in_main m ops w)))).
Proof.
  rewrite main_trace, in_app_iff. intros [H|H]; [now left|right].
  destruct (res (select World aligned_in_main m ops w)) as [b| |];
    try contradiction.
  exists b. repeat split; [|exact H].
  apply (run_best_trace_found aligned_in_main m ops b
           (world (select World aligned_in_main m ops w))).
  intros E. rewrite E in H. contradiction.
Qed.
End Events.

(** ** The aligned strides *)

Lemma at_nonneg {A} (l : list A) (i : Z) :
  0 <= i -> at_ l i = l !! Z.to_nat i.
Proof. intros H. unfold at_. destruct (Z.ltb_spec i 0); [lia|reflexivity]. Qed.

Lemma set_at_Some {A} (l : list A) (i : Z) (v : A) :
  0 <= i < Z.of_nat (length l) -> set_at l i v = Some (<[Z.to_nat i := v]> l).
Proof.
  intros H. unfold set_at.
  destruct (Z.leb_spec 0 i); [|lia]. destruct (Z.ltb_spec i (Z.of_nat (length l)));
    [reflexivity|lia].
Qed.

Lemma align_loop_spec ndebug lengths sbl sbs dims : forall i aligned,
  0 <= i ->
  NoDup dims ->
  (forall d, In d dims -> 0 <= d < Z.of_nat (length aligned)) ->
  (forall k d, dims !! k = Some d ->
     is_Some (at_ sbs (i + Z.of_nat k)) /\
     is_Some (at_ lengths d) /\
     at_ lengths d = at_ sbl (i + Z.of_nat k)) ->
  exists aligned',
    align_loop ndebug lengths sbl sbs dims i aligned = Some aligned' /\
    length aligned' = length aligned /\
    (forall k d, dims !! k = Some d ->
       at_ aligned' d = at_ sbs (i + Z.of_nat k)) /\
    (forall d, ~ In d dims -> 0 <= d -> at_ aligned' d = at_ aligned d).
Proof.
  induction dims as [|dim rest IH]; intros i aligned Hi Hnd Hrange Hok.
  - exists aligned. split; [reflexivity|split; [reflexivity|split]].
    + intros k d Hk. rewrite lookup_nil in Hk. discriminate.
    + reflexivity.
  - apply NoDup_cons in Hnd as [Hnotin Hnd].
    destruct (Hok 0%nat dim eq_refl) as ([st Hst] & [xl Hxl] & Hsame).
    rewrite Z.add_0_r in Hst, Hsame.
    assert (Hdim : 0 <= dim < Z.of_nat (length aligned))
      by (apply Hrange; now left).
    assert (Hassert : assert_same_length ndebug lengths sbl dim i = Some tt).
    { unfold assert_same_length. destruct ndebug; [reflexivity|].
      rewrite <- Hsame, Hxl. simpl. now rewrite Z.eqb_refl. }
    destruct (IH (i + 1) (<[Z.to_nat dim := st]> aligned)) as
      (aligned' & Hloop & Hlen & Hset & Hkeep).
    + lia.
    + exact Hnd.
    + intros d Hd. rewrite length_insert. apply Hrange. now right.
    + intros k d Hk. replace (i + 1 + Z.of_nat k) with (i + Z.of_nat (S k)) by lia.
      now apply Hok.
    + exists aligned'. split; [|split; [|split]].
      * cbn [align_loop]. rewrite Hassert, Hst. cbn [mbind option_bind].
        rewrite (set_at_Some _ _ _ Hdim). exact Hloop.
      * now rewrite Hlen, length_insert.
      * intros [|k] d Hk.
        -- injection Hk as <-. rewrite Z.add_0_r, Hst.
           rewrite Hkeep; [|rewrite <- list_elem_of_In; exact Hnotin|lia].
           rewrite at_nonneg by lia.
           apply list_lookup_insert_eq. lia.
        -- replace (i + Z.of_nat (S k)) with (i + 1 + Z.of_nat k) by lia.
           now apply Hset.
      * intros d Hd Hd0.
        rewrite Hkeep; [|intros Hr; apply Hd; now right|exact Hd0].
        rewrite !at_nonneg by lia. apply list_lookup_insert_ne.
        intros E. apply Hd. left. lia.
Qed.

(** C10. The aligned stride array built at lines 71-80 holds, at every
    dimension listed in [invariantDims], the entry of
    [scaleBiasMeanVarStrides] at the same position of the list, and 0 at every
    other dimension of the rank: the scale, bias, mean and variance tensors
    are broadcast with stride 0 over the reduce dimensions. The loop is taken
    over any arrays of the declared shapes: the listed dimensions are distinct
    and within the rank, there is one stride per listed dimension, and the
    asserted equality of lengths holds. *)
Theorem aligned_strides_broadcast ndebug rank lengths sbmvLengths sbmvStrides dims :
  0 <= rank ->
  NoDup dims ->
  (forall d, In d dims -> 0 <= d < rank) ->
  length sbmvStrides = length dims ->
  (forall k d, dims !! k = Some d ->
     is_Some (at_ lengths d) /\ at_ lengths d = sbmvLengths !! k) ->
  exists aligned,
    align_strides ndebug rank lengths sbmvLengths sbmvStrides dims = Some aligned /\
    length aligned = Z.to_nat rank /\
    (forall k d, dims !! k = Some d -> at_ aligned d = sbmvStrides !! k) /\
    (forall d, 0 <= d < rank -> ~ In d dims -> at_ aligned d = Some 0).
Proof.
  intros Hrank Hnd Hrange Hlen Hassert.
  destruct (align_loop_spec ndebug lengths sbmvLengths sbmvStrides dims 0
              (replicate (Z.to_nat rank) 0)) as (aligned & Hloop & Hl & Hset & Hkeep).
  - lia.
  - exact Hnd.
  - intros d Hd. rewrite length_replicate. specialize (Hrange d Hd). lia.
  - intros k d Hk. rewrite Z.add_0_l, (at_nonneg sbmvStrides) by lia.
    rewrite Nat2Z.id.
    destruct (Hassert k d Hk) as [H1 H2]. split; [|split].
    + apply lookup_lt_is_Some. rewrite Hlen. eapply lookup_lt_Some, Hk.
    + exact H1.
    + rewrite H2, at_nonneg by lia. now rewrite Nat2Z.id.
  - exists aligned. split; [exact Hloop|split; [|split]].
    + now rewrite Hl, length_replicate.
    + intros k d Hk. rewrite (Hset k d Hk), Z.add_0_l.
      rewrite at_nonneg by lia. now rewrite Nat2Z.id.
    + intros d Hd Hnot. rewrite (Hkeep d Hnot) by lia.
      rewrite at_nonneg by lia. apply lookup_replicate_2. lia.
Qed.

Lemma aligned_strides_broadcast_witness :
  exists aligned,
    aligned_scaleBiasMeanVarStrides false = Some aligned /\
    length aligned = Z.to_nat Rank /\
    (forall k d, invariantDims !! k = Some d ->
       at_ aligned d = scaleBiasMeanVarStrides !! k) /\
    (forall d, 0 <= d < Rank -> ~ In d invariantDims -> at_ aligned d = Some 0).
Proof.
  apply (aligned_strides_broadcast false Rank xyLengths scaleBiasMeanVarLengths
           scaleBiasMeanVarStrides invariantDims).
  - unfold Rank; lia.
  - unfold invariantDims. apply NoDup_singleton.
  - unfold invariantDims, Rank. intros d [<-|[]]. lia.
  - reflexivity.
  - intros [|k] d Hk; [|destruct k; discriminate Hk].
    injection Hk as <-. split; [eexists|]; reflexivity.
Defined.

(** ** The selection as a whole *)

Section Selection.
Context {World : Type}.
Implicit Types (ops : list (DeviceOp World)) (w : World) (b : Best).

Lemma select_best_inv al m ops w b :
  res (select World al m ops w) = Normal b ->
  best_inv ops (measured al m ops w) b.
Proof.
  intros Hres. unfold measured. rewrite select_unfold in *.
  cbn [res trace after] in *.
  assert (H := fun Hlt => profile_loop_best_inv al m ops [] 0%nat init_best w
                (fun _ _ => False) b eq_refl Hlt (best_inv_init _) Hres).
  cbn [app] in H. specialize (H (fun j t (F : False) => False_ind _ F)).
  eapply best_inv_ext; [|exact H].
  intros j t. cbn beta. simpl. split.
  - intros [[]|Hin]. right. right. exact Hin.
  - intros [Hd|[Hd|Hin]]; try discriminate. now right.
Qed.

(** In the loop, a run of instance [k] comes with the construction of its
    argument. *)
Lemma profile_loop_run_made al m ops : forall i b w k a cfg r,
  In (ERun Profiling k a cfg r) (trace (profile_loop World al m i ops b w)) ->
  In (EMakeArgument Profiling k a) (trace (profile_loop World al m i ops b w)).
Proof.
  induction ops as [|op ops IH]; intros i b w k a cfg r Hin.
  - contradiction.
  - loop_step op w; rewrite ?in_app_iff in *.
    + destruct Hin as [Hin|Hin]; [left|right; eapply IH, Hin].
      apply In_run_turn_profiled in Hin as (-> & -> & _). simpl. now left.
    + simpl in Hin.
      destruct Hin as [H|[H|[H|[H|[]]]]]; try discriminate.
      injection H as <- <- _ _. simpl. now left.
    + destruct Hin as [Hin|Hin]; [|right; eapply IH, Hin].
      now apply In_run_turn_unsupported in Hin.
Qed.

Lemma select_run_made al m ops w k a cfg r :
  In (ERun Profiling k a cfg r) (trace (select World al m ops w)) ->
  In (EMakeArgument Profiling k a) (trace (select World al m ops w)).
Proof.
  rewrite select_unfold. cbn [trace after]. simpl.
  intros [H|[H|H]]; try discriminate.
  right; right. eapply profile_loop_run_made, H.
Qed.

(** The best instance is one of the list: line 159 reads inside
    [op_ptrs]. *)
Lemma select_best_in_range al m ops w b :
  res (select World al m ops w) = Normal b -> found b = true ->
  exists k op, best_op_id b = Z.of_nat k /\ at_ ops (best_op_id b) = Some op /\
    ops !! k = Some op /\ best_op_name b = GetTypeString op.
Proof.
  intros Hres Hf.
  destruct (inv_some _ _ _ (select_best_inv _ _ _ _ _ Hres) Hf)
    as (k & op & Hk & Hop & Hname & _).
  exists k, op. repeat split; try assumption.
  rewrite Hk, at_nonneg by lia. now rewrite Nat2Z.id.
Qed.
End Selection.

(** C4. In every execution of [main], whatever the instances answer and
    however the execution ends, each call of [Run] (the timed one of the
    profiling loop and the untimed one of the best instance) comes directly
    after a call of [IsSupportedArgument] of the same instance on the same
    argument that answered [true]. *)
Theorem run_guarded_by_support_check World ndebug m (ops : list (DeviceOp World))
    w pre post ph i a cfg r :
  trace (main World ndebug m ops w) = pre ++ ERun ph i a cfg r :: post ->
  exists pre', pre = pre' ++ [EIsSupported ph i a true].
Proof. apply main_guarded. Qed.

Lemma run_guarded_by_support_check_witness :
  exists pre',
    firstn 22 (trace scenario_run) =
    pre' ++ [EIsSupported Production 1
               (production_argument aligned_in_main scenario_buffers) true].
Proof.
  apply (run_guarded_by_support_check unit false scenario_buffers scenario_ops tt
           (firstn 22 (trace scenario_run)) (skipn 23 (trace scenario_run))
           Production 1 (production_argument aligned_in_main scenario_buffers)
           untimed (Elapsed ms_3_2)).
  vm_compute. reflexivity.
Defined.

(** C6. Every call of [Run] in the profiling loop is given
    [StreamConfig{nullptr, true}] and the call for the best instance is given
    [StreamConfig{nullptr, false}]; the time kept as [best_ave_time] when an
    instance is found is the value returned by one of the timed runs. *)
Theorem timing_flags World ndebug m (ops : list (DeviceOp World)) w :
  (forall ph i a cfg r,
     In (ERun ph i a cfg r) (trace (main World ndebug m ops w)) ->
     cfg = match ph with Profiling => timed | Production => untimed end /\
     time_kernel_ cfg = match ph with Profiling => true | Production => false end) /\
  (forall al b,
     res (select World al m ops w) = Normal b -> found b = true ->
     exists k a,
       In (ERun Profiling k a timed (Elapsed (best_ave_time b)))
          (trace (select World al m ops w))).
Proof.
  split.
  - intros ph i a cfg r Hin.
    apply main_events in Hin as [Hin|(b & _ & _ & Hin)].
    + apply select_events in Hin as [H|[H|H]]; try discriminate.
      destruct H as (-> & _ & -> & _). split; reflexivity.
    + pose proof (run_best_events aligned_in_main m ops b
                    (world (select World aligned_in_main m ops w))) as H.
      rewrite Forall_forall in H. apply list_elem_of_In, H in Hin.
      destruct Hin as (-> & _ & -> & _). split; reflexivity.
  - intros al b Hres Hf.
    destruct (inv_some _ _ _ (select_best_inv _ _ _ _ _ Hres) Hf)
      as (k & op & _ & _ & _ & Hm & _).
    exists k, (profiling_argument al m). exact Hm.
Qed.

Lemma timing_flags_witness :
  time_kernel_ untimed = false /\
  exists k a,
    In (ERun Profiling k a timed (Elapsed ms_3_2))
       (trace (select unit aligned_in_main scenario_buffers scenario_ops tt)).
Proof.
  pose proof (timing_flags unit false scenario_buffers scenario_ops tt) as [H1 H2].
  split.
  - apply (H1 Production 1%nat
              (production_argument aligned_in_main scenario_buffers) untimed
              (Elapsed ms_3_2)).
    vm_compute. tauto.
  - apply (H2 aligned_in_main
              {| found := true; best_op_id := 1; best_op_name := "B";
                 best_ave_time := ms_3_2;
                 best_gb_per_sec := gb_per_sec_of num_bytes ms_3_2 |}).
    + vm_compute. reflexivity.
    + reflexivity.
Defined.

(** C9. The argument built at lines 163-176 for the best instance is built
    from the same lengths, strides, buffers and epsilon as the one built for
    it at lines 106-119: the two constructions are the same function of the
    program state, nothing of that state changes in between, and so whenever
    [main] builds an argument for the run of the best instance it has built
    an equal one for that instance while profiling. *)
Theorem production_argument_same World ndebug m (ops : list (DeviceOp World)) w :
  (forall al m', production_argument al m' = profiling_argument al m') /\
  (forall k a,
     In (EMakeArgument Production k a) (trace (main World ndebug m ops w)) ->
     In (EMakeArgument Profiling k a) (trace (main World ndebug m ops w))).
Proof.
  split; [reflexivity|].
  intros k a Hin.
  apply main_events in Hin as [Hin|(b & Hres & Hf & Hin)].
  - apply select_events in Hin as [H|[H|H]]; try discriminate.
    destruct H as (H & _). discriminate.
  - pose proof (run_best_events aligned_in_main m ops b
                  (world (select World aligned_in_main m ops w))) as H.
    rewrite Forall_forall in H. apply list_elem_of_In, H in Hin.
    destruct Hin as (_ & -> & ->).
    destruct (inv_some _ _ _ (select_best_inv _ _ _ _ _ Hres) Hf)
      as (j & op & Hj & _ & _ & Hm & _).
    rewrite Hj, Nat2Z.id. rewrite main_trace, in_app_iff. left.
    eapply select_run_made. exact Hm.
Qed.

Lemma production_argument_same_witness :
  In (EMakeArgument Profiling 1
        (production_argument aligned_in_main scenario_buffers))
     (trace scenario_run).
Proof.
  apply (proj2 (production_argument_same unit false scenario_buffers
                  scenario_ops tt)).
  vm_compute. tauto.
Defined.

(** ** No supported instance *)

Section NoneSupported.
Context {World : Type}.
Implicit Types (ops : list (DeviceOp World)) (w : World) (b : Best).

Lemma profile_loop_all_unsupported al m ops : forall i b w,
  (forall j a, ~ In (EIsSupported Profiling j a true)
                    (trace (profile_loop World al m i ops b w))) ->
  res (profile_loop World al m i ops b w) = Normal b /\
  (forall ph j a cfg r,
     ~ In (ERun ph j a cfg r) (trace (profile_loop World al m i ops b w))).
Proof.
  induction ops as [|op ops IH]; intros i b w Hno.
  - split; [reflexivity|]. intros ph j a cfg r [].
  - loop_step op w.
    + exfalso. apply (Hno i (profiling_argument al m)).
      apply in_app_iff. left. simpl. tauto.
    + exfalso. apply (Hno i (profiling_argument al m)). simpl. tauto.
    + destruct (IH (S i) b w1) as [Hres Hrun].
      { intros j a Hin. apply (Hno j a). apply in_app_iff. now right. }
      split; [exact Hres|].
      intros ph j a cfg r Hin. apply in_app_iff in Hin as [Hin|Hin].
      * now apply In_run_turn_unsupported in Hin.
      * now apply Hrun in Hin.
Qed.
End NoneSupported.

(** C3. If the list of instances is empty, or none of them answers that the
    argument is supported, the selection ends with nothing found (no best
    index, no best name), [main] never enters the run of the best instance
    (no event of that phase, and no call of [Run] at all), and [main] returns
    0. *)
Theorem none_supported World ndebug m (ops : list (DeviceOp World)) w :
  ops = [] \/
  (forall i a, ~ In (EIsSupported Profiling i a true)
                    (trace (main World ndebug m ops w))) ->
  (exists b, res (select World aligned_in_main m ops w) = Normal b /\
     found b = false /\ best_op_id b = -1 /\ best_op_name b = EmptyString) /\
  res (main World ndebug m ops w) = Normal 0 /\
  (forall e, In e (trace (main World ndebug m ops w)) ->
     event_phase e <> Some Production) /\
  (forall ph i a cfg r, ~ In (ERun ph i a cfg r) (trace (main World ndebug m ops w))).
Proof.
  intros H.
  assert (Hno : forall i a, ~ In (EIsSupported Profiling i a true)
            (trace (profile_loop World aligned_in_main m 0 ops init_best w))).
  { destruct H as [->|H]; [intros i a []|].
    intros i a Hin. apply (H i a). rewrite main_trace, select_unfold.
    cbn [trace after]. apply in_app_iff. left. right. right. exact Hin. }
  destruct (profile_loop_all_unsupported _ _ _ _ _ _ Hno) as [Hres Hrun].
  assert (Hsel : res (select World aligned_in_main m ops w) = Normal init_best)
    by (rewrite select_unfold; exact Hres).
  assert (Htr : trace (main World ndebug m ops w) =
                trace (select World aligned_in_main m ops w)).
  { rewrite main_trace, Hsel, run_best_not_found by reflexivity.
    cbn [trace]. apply app_nil_r. }
  split; [|split; [|split]].
  - exists init_best. repeat split. exact Hsel.
  - rewrite main_unfold. cbn zeta. rewrite Hsel.
    rewrite run_best_not_found by reflexivity. reflexivity.
  - intros e Hin. rewrite Htr in Hin.
    apply select_events in Hin as [->|[->|Hin]]; try discriminate.
    destruct e as [ph j a|ph j|ph j a r|ph j a cfg r|l]; simpl in *;
      try discriminate; destruct Hin as [-> _]; discriminate.
  - intros ph i a cfg r Hin. rewrite Htr, select_unfold in Hin.
    cbn [trace after] in Hin. destruct Hin as [Hd|[Hd|Hin]]; try discriminate.
    now apply Hrun in Hin.
Qed.

Lemma none_supported_witness :
  (exists b,
     res (select unit aligned_in_main scenario_buffers unsupported_ops tt) =
       Normal b /\
     found b = false /\ best_op_id b = -1 /\ best_op_name b = EmptyString) /\
  res (main unit false scenario_buffers unsupported_ops tt) = Normal 0 /\
  (forall e, In e (trace (main unit false scenario_buffers unsupported_ops tt)) ->
     event_phase e <> Some Production) /\
  (forall ph i a cfg r,
     ~ In (ERun ph i a cfg r)
          (trace (main unit false scenario_buffers unsupported_ops tt))).
Proof.
  apply (none_supported unit false scenario_buffers unsupported_ops tt).
  right. intros i a. vm_compute. intuition discriminate.
Defined.

(** ** A failed re-check before the run of the best instance *)

(** C2, as stated, fails: the instance is selected, the check of line 180
    answers [false], and [main] prints "Done" and returns 0. No error is
    raised and nothing reports the disagreement. *)
Lemma recheck_failure_not_raised :
  let r := main nat false scenario_buffers [flapping] 0%nat in
  In (EIsSupported Production 0
        (production_argument aligned_in_main scenario_buffers) false) (trace r) /\
  res r = Normal 0 /\
  last (trace r) = Some (EOut LDone).
Proof. vm_compute. intuition. Qed.

(** C2, amended. If the check of line 180 on the argument rebuilt for the
    best instance answers [false], [Run] is not called for the best instance,
    and the execution goes on: the next and last thing [main] does is to print
    "Done", and it returns 0. *)
Theorem recheck_failure_skips_run World ndebug m (ops : list (DeviceOp World)) w i a :
  In (EIsSupported Production i a false) (trace (main World ndebug m ops w)) ->
  (forall j a' cfg r,
     ~ In (ERun Production j a' cfg r) (trace (main World ndebug m ops w))) /\
  res (main World ndebug m ops w) = Normal 0 /\
  exists pre,
    trace (main World ndebug m ops w) =
    pre ++ [EIsSupported Production i a false; EOut LDone].
Proof.
  intros Hin.
  assert (Hsel : forall j a' cfg r,
    ~ In (ERun Production j a' cfg r) (trace (select World aligned_in_main m ops w))).
  { intros j a' cfg r H. apply select_events in H as [H|[H|H]]; try discriminate.
    destruct H as [H _]. discriminate. }
  apply main_events in Hin as [Hin|(b & Hres & Hf & Hin)].
  { apply select_events in Hin as [H|[H|H]]; try discriminate.
    destruct H as [H _]. discriminate. }
  destruct (select_best_in_range _ _ _ _ _ Hres Hf) as (k & op & Hk & Hop & _).
  rewrite main_trace, main_unfold. cbn zeta. rewrite Hres.
  rewrite (run_best_found _ _ _ _ _ _ Hf Hop) in *. cbn zeta in *.
  destruct (IsSupportedArgument op _ _) as [[|] w1].
  - exfalso.
    destruct (Run op _ untimed w1) as [[t|] w2]; cbn [trace] in Hin;
      simpl in Hin; intuition discriminate.
  - cbn [res trace] in *. split; [|split; [reflexivity|]].
    + intros j a' cfg r H. apply in_app_iff in H as [H|H].
      * now apply Hsel in H.
      * simpl in H. intuition discriminate.
    + simpl in Hin.
      destruct Hin as [H|[H|[H|[H|[H|[H|[]]]]]]]; try discriminate.
      injection H as <- <-.
      exists (trace (select World aligned_in_main m ops w) ++
              best_prefix op (production_argument aligned_in_main m) b).
      now rewrite <- app_assoc.
Qed.

Lemma recheck_failure_skips_run_witness :
  (forall j a' cfg r,
     ~ In (ERun Production j a' cfg r)
          (trace (main nat false scenario_buffers [flapping] 0%nat))) /\
  res (main nat false scenario_buffers [flapping] 0%nat) = Normal 0 /\
  exists pre,
    trace (main nat false scenario_buffers [flapping] 0%nat) =
    pre ++ [EIsSupported Production 0
              (production_argument aligned_in_main scenario_buffers) false;
            EOut LDone].
Proof.
  apply (recheck_failure_skips_run nat false scenario_buffers [flapping] 0%nat).
  vm_compute. tauto.
Defined.

(** ** A run that fails while profiling *)

Section Thrown.
Context {World : Type}.
Implicit Types (ops : list (DeviceOp World)) (w : World) (b : Best).

Lemma profile_loop_thrown al m ops : forall i b w k a cfg,
  In (ERun Profiling k a cfg Throws) (trace (profile_loop World al m i ops b w)) ->
  res (profile_loop World al m i ops b w) = Uncaught /\
  (exists pre, trace (profile_loop World al m i ops b w) =
               pre ++ [ERun Profiling k a cfg Throws]) /\
  Forall (index_at_most k) (trace (profile_loop World al m i ops b w)).
Proof.
  induction ops as [|op ops IH]; intros i b w k a cfg Hin.
  - contradiction.
  - assert (Hrest : forall b' w' (turn : list Event),
      Forall (index_at_most i) turn ->
      ~ In (ERun Profiling k a cfg Throws) turn ->
      In (ERun Profiling k a cfg Throws)
         (turn ++ trace (profile_loop World al m (S i) ops b' w')) ->
      res (profile_loop World al m (S i) ops b' w') = Uncaught /\
      (exists pre, turn ++ trace (profile_loop World al m (S i) ops b' w') =
                   pre ++ [ERun Profiling k a cfg Throws]) /\
      Forall (index_at_most k)
             (turn ++ trace (profile_loop World al m (S i) ops b' w'))).
    { intros b' w' turn Hturn Hnot H. apply in_app_iff in H as [H|H]; [tauto|].
      pose proof (profile_loop_events al m ops (S i) b' w') as Hev.
      rewrite Forall_forall in Hev.
      pose proof (Hev _ (proj2 (list_elem_of_In _ _) H)) as Hk. simpl in Hk.
      destruct (IH _ _ _ _ _ _ H) as (Hres & [pre Hpre] & Hall).
      split; [exact Hres|split].
      - exists (turn ++ pre). now rewrite Hpre, app_assoc.
      - apply Forall_app. split; [|exact Hall].
        eapply Forall_impl; [exact Hturn|].
        intros e He j Hj. specialize (He j Hj). lia. }
    loop_step op w.
    + apply Hrest; [| |exact Hin].
      * repeat constructor; intros j Hj; try discriminate;
          injection Hj as <-; lia.
      * rewrite In_run_turn_profiled. intros (_ & _ & _ & Hd). discriminate.
    + simpl in Hin. destruct Hin as [H|[H|[H|[H|[]]]]]; try discriminate.
      injection H as <- <- <-.
      split; [reflexivity|split].
      * exists (turn_prefix (profiling_argument al m) i ++
                [EIsSupported Profiling i (profiling_argument al m) true]).
        reflexivity.
      * repeat constructor; intros j Hj; try discriminate;
          injection Hj as <-; lia.
    + apply Hrest; [| |exact Hin].
      * repeat constructor; intros j Hj; try discriminate;
          injection Hj as <-; lia.
      * apply In_run_turn_unsupported.
Qed.
End Thrown.

(** C5, as stated, fails: nothing catches the exception of the first
    instance. It leaves [main], and the second instance is never looked at. *)
Lemma run_failure_not_caught :
  let r := main unit false scenario_buffers throwing_ops tt in
  res r = Uncaught /\
  Forall (fun e => event_index e <> Some 1%nat) (trace r) /\
  ~ In (EOut LDone) (trace r).
Proof.
  vm_compute. split; [reflexivity|split].
  - repeat constructor; discriminate.
  - intuition discriminate.
Qed.

(** C5, amended. If the [Run] of an instance throws while profiling, nothing
    in [main] catches it: the exception leaves [main], the failed call is the
    last thing [main] does, and no instance registered after the failing one
    is looked at. (Only an instance that answers unsupported is skipped with
    the loop going on.) *)
Theorem run_failure_aborts World ndebug m (ops : list (DeviceOp World)) w i a cfg :
  In (ERun Profiling i a cfg Throws) (trace (main World ndebug m ops w)) ->
  res (main World ndebug m ops w) = Uncaught /\
  (exists pre, trace (main World ndebug m ops w) =
               pre ++ [ERun Profiling i a cfg Throws]) /\
  (forall e j, In e (trace (main World ndebug m ops w)) ->
     event_index e = Some j -> (j <= i)%nat).
Proof.
  intros Hin.
  apply main_events in Hin as [Hin|(b & _ & _ & Hin)].
  - rewrite select_unfold in Hin. cbn [trace after] in Hin.
    destruct Hin as [Hd|[Hd|Hin]]; try discriminate.
    destruct (profile_loop_thrown _ _ _ _ _ _ _ _ _ Hin) as (Hres & [pre Hpre] & Hall).
    assert (Hsel : res (select World aligned_in_main m ops w) = Uncaught)
      by (rewrite select_unfold; exact Hres).
    rewrite main_trace, main_unfold. cbn zeta. rewrite Hsel. cbn [res].
    rewrite app_nil_r, select_unfold. cbn [trace after].
    split; [reflexivity|split].
    + exists ([EOut (LFound (length ops)); EOut LRunAll] ++ pre).
      now rewrite Hpre, app_assoc.
    + intros e j [<-|[<-|He]] Hj; try discriminate.
      rewrite Forall_forall in Hall.
      exact (Hall e (proj2 (list_elem_of_In _ _) He) j Hj).
  - pose proof (run_best_events aligned_in_main m ops b
                  (world (select World aligned_in_main m ops w))) as H.
    rewrite Forall_forall in H. apply list_elem_of_In, H in Hin.
    destruct Hin as (Hd & _). discriminate.
Qed.

Lemma run_failure_aborts_witness :
  res (main unit false scenario_buffers throwing_ops tt) = Uncaught /\
  (exists pre, trace (main unit false scenario_buffers throwing_ops tt) =
     pre ++ [ERun Profiling 0 (profiling_argument aligned_in_main scenario_buffers)
               timed Throws]) /\
  (forall e j, In e (trace (main unit false scenario_buffers throwing_ops tt)) ->
     event_index e = Some j -> (j <= 0)%nat).
Proof.
  apply (run_failure_aborts unit false scenario_buffers throwing_ops tt).
  vm_compute. tauto.
Defined.

(** ** Determinism of the selection *)

Section Determinism.
Context {World : Type}.
Implicit Types (ops : list (DeviceOp World)) (w : World) (b : Best).

Lemma profile_loop_replay al m verdict elapsed ops : forall i b w,
  follows verdict elapsed (trace (profile_loop World al m i ops b w)) ->
  res (profile_loop World al m i ops b w) =
  Normal (replay verdict elapsed i (map GetTypeString ops) b).
Proof.
  unfold follows.
  induction ops as [|op ops IH]; intros i b w H.
  - reflexivity.
  - cbn [map replay]. loop_step op w.
    + apply Forall_app in H as [Hturn Hrest].
      unfold turn_profiled, turn_prefix in Hturn. cbn [app] in Hturn.
      repeat (apply Forall_cons in Hturn as [? Hturn]).
      match goal with Hv : true = verdict i |- _ => rewrite <- Hv end.
      match goal with He : Elapsed _ = Elapsed _ |- _ => injection He as <- end.
      now apply IH.
    + unfold turn_thrown, turn_prefix in H. cbn [app] in H.
      repeat (apply Forall_cons in H as [? H]). discriminate.
    + apply Forall_app in H as [Hturn Hrest].
      unfold turn_unsupported, turn_prefix in Hturn. cbn [app] in Hturn.
      repeat (apply Forall_cons in Hturn as [? Hturn]).
      match goal with Hv : false = verdict i |- _ => rewrite <- Hv end.
      now apply IH.
Qed.

Lemma select_replay al m verdict elapsed ops w :
  follows verdict elapsed (trace (select World al m ops w)) ->
  res (select World al m ops w) =
  Normal (replay verdict elapsed 0 (map GetTypeString ops) init_best).
Proof.
  rewrite select_unfold. cbn [res trace after]. intros H.
  apply profile_loop_replay. unfold follows in *.
  apply Forall_app in H as [_ H]. exact H.
Qed.
End Determinism.

(** C7. The selection is determined by the list of instances, their
    verdicts and their times: two executions of the selection over the same
    list, started in any two states of the device, in which every instance
    gives the verdict and the time that one fixed assignment prescribes, end
    with the same [found], [best_op_id], [best_op_name], [best_ave_time] and
    [best_gb_per_sec]. *)
Theorem selection_deterministic World al m (ops : list (DeviceOp World))
    verdict elapsed w1 w2 :
  follows verdict elapsed (trace (select World al m ops w1)) ->
  follows verdict elapsed (trace (select World al m ops w2)) ->
  exists b,
    res (select World al m ops w1) = Normal b /\
    res (select World al m ops w2) = Normal b.
Proof.
  intros H1 H2.
  exists (replay verdict elapsed 0 (map GetTypeString ops) init_best).
  split; now apply select_replay.
Qed.

Lemma selection_deterministic_witness :
  exists b,
    res (select nat aligned_in_main scenario_buffers counting_ops 0%nat) = Normal b /\
    res (select nat aligned_in_main scenario_buffers counting_ops 7%nat) = Normal b.
Proof.
  apply (selection_deterministic nat aligned_in_main scenario_buffers
           counting_ops (fun _ => true) scenario_elapsed 0%nat 7%nat).
  - vm_compute. repeat constructor.
  - vm_compute. repeat constructor.
Defined.

(** ** The recorded throughput *)

Lemma numXYElement_value :
  numXYElement = 4194304 /\ numScaleBiasMeanVarElement = 256 /\
  num_bytes = 33558528.
Proof. repeat split. Qed.

Section Throughput.
Context {World : Type}.
Implicit Types (ops : list (DeviceOp World)) (w : World) (b : Best).

Lemma profile_loop_perf_logged al m ops : forall pre i b w k a cfg t,
  length pre = i ->
  In (ERun Profiling k a cfg (Elapsed t))
     (trace (profile_loop World al m i ops b w)) ->
  exists op, (pre ++ ops) !! k = Some op /\
    In (EOut (LPerf t (gb_per_sec_of num_bytes t) (GetTypeString op)))
       (trace (profile_loop World al m i ops b w)).
Proof.
  induction ops as [|op ops IH]; intros pre i b w k a cfg t Hlen Hin.
  - contradiction.
  - assert (Hop : (pre ++ op :: ops) !! i = Some op).
    { rewrite <- Hlen. rewrite list_lookup_middle; reflexivity. }
    assert (Hpre : pre ++ op :: ops = (pre ++ [op]) ++ ops)
      by now rewrite <- app_assoc.
    assert (Hlen' : length (pre ++ [op]) = S i)
      by (rewrite length_app; simpl; lia).
    loop_step op w.
    + apply in_app_iff in Hin as [Hin|Hin].
      * apply In_run_turn_profiled in Hin as (-> & _ & _ & Ht).
        injection Ht as ->. exists op. split; [exact Hop|].
        apply in_app_iff. left. simpl. tauto.
      * destruct (IH (pre ++ [op]) _ _ _ _ _ _ _ Hlen' Hin) as (op' & H1 & H2).
        exists op'. rewrite Hpre. split; [exact H1|].
        apply in_app_iff. now right.
    + simpl in Hin. intuition discriminate.
    + apply in_app_iff in Hin as [Hin|Hin].
      * now apply In_run_turn_unsupported in Hin.
      * destruct (IH (pre ++ [op]) _ _ _ _ _ _ _ Hlen' Hin) as (op' & H1 & H2).
        exists op'. rewrite Hpre. split; [exact H1|].
        apply in_app_iff. now right.
Qed.
End Throughput.

(** C8. [num_bytes] is [numXYElement * (sizeof(XDataType) +
    sizeof(YDataType)) + numScaleBiasMeanVarElement * (sizeof(ScaleDataType) +
    sizeof(BiasDataType) + 2 * sizeof(MeanVarDataType))]. For every instance
    that is run while profiling and returns the time [t], the line printed for
    it carries, next to [t] and the name of the instance, the throughput
    [num_bytes / 10^6 / t], the quotient of the bytes moved by [10^6 * t],
    which line 133 evaluates as two divisions in [double] and narrows to
    [float]. The throughput kept and printed for the best instance is that
    same quotient at the best instance's own time. *)
Theorem throughput_recorded World ndebug m (ops : list (DeviceOp World)) w :
  num_bytes =
    numXYElement * (sizeof_XDataType + sizeof_YDataType) +
    numScaleBiasMeanVarElement *
      (sizeof_ScaleDataType + sizeof_BiasDataType + 2 * sizeof_MeanVarDataType) /\
  (forall i a cfg t,
     In (ERun Profiling i a cfg (Elapsed t)) (trace (main World ndebug m ops w)) ->
     exists op, ops !! i = Some op /\
       In (EOut (LPerf t
                   (F32.of_double
                      (F64.div (F64.div (F64.of_Z num_bytes) (F64.of_Z (10 ^ 6)))
                               (F64.of_float t)))
                   (GetTypeString op)))
          (trace (main World ndebug m ops w))) /\
  (forall al b,
     res (select World al m ops w) = Normal b -> found b = true ->
     best_gb_per_sec b =
       F32.of_double
         (F64.div (F64.div (F64.of_Z num_bytes) (F64.of_Z (10 ^ 6)))
                  (F64.of_float (best_ave_time b))) /\
     exists k, best_op_id b = Z.of_nat k /\
       measured al m ops w k (best_ave_time b)) /\
  (forall t g name,
     In (EOut (LBestPerf t g name)) (trace (main World ndebug m ops w)) ->
     g = F32.of_double
           (F64.div (F64.div (F64.of_Z num_bytes) (F64.of_Z (10 ^ 6)))
                    (F64.of_float t))).
Proof.
  change (10 ^ 6) with 1000000.
  split; [reflexivity|split; [|split]].
  - intros i a cfg t Hin.
    apply main_events in Hin as [Hin|(b & _ & _ & Hin)].
    + rewrite select_unfold in Hin. cbn [trace after] in Hin.
      destruct Hin as [Hd|[Hd|Hin]]; try discriminate.
      destruct (profile_loop_perf_logged _ _ _ [] _ _ _ _ _ _ _ eq_refl Hin)
        as (op & H1 & H2).
      exists op. split; [exact H1|].
      rewrite main_trace, select_unfold. cbn [trace after].
      apply in_app_iff. left. right. right. exact H2.
    + pose proof (run_best_events aligned_in_main m ops b
                    (world (select World aligned_in_main m ops w))) as H.
      rewrite Forall_forall in H. apply list_elem_of_In, H in Hin.
      destruct Hin as (Hd & _). discriminate.
  - intros al b Hres Hf.
    destruct (inv_some _ _ _ (select_best_inv _ _ _ _ _ Hres) Hf)
      as (k & op & Hk & _ & _ & Hm & Hgb & _).
    split; [exact Hgb|]. exists k. split; assumption.
  - intros t g name Hin.
    apply main_events in Hin as [Hin|(b & Hres & Hf & Hin)].
    + apply select_events in Hin as [H|[H|H]]; try discriminate.
      contradiction.
    + pose proof (run_best_events aligned_in_main m ops b
                    (world (select World aligned_in_main m ops w))) as H.
      rewrite Forall_forall in H. apply list_elem_of_In, H in Hin.
      destruct Hin as (-> & -> & _).
      destruct (inv_some _ _ _ (select_best_inv _ _ _ _ _ Hres) Hf)
        as (k & op & _ & _ & _ & _ & Hgb & _).
      exact Hgb.
Qed.

Lemma throughput_recorded_witness :
  exists op, scenario_ops !! 1%nat = Some op /\
    In (EOut (LPerf ms_3_2
                (F32.of_double
                   (F64.div (F64.div (F64.of_Z num_bytes) (F64.of_Z (10 ^ 6)))
                            (F64.of_float ms_3_2)))
                (GetTypeString op)))
       (trace scenario_run).
Proof.
  apply (proj1 (proj2 (throughput_recorded unit false scenario_buffers
                         scenario_ops tt))
           1%nat (profiling_argument aligned_in_main scenario_buffers) timed).
  vm_compute. tauto.
Defined.

(** ** The best instance is the first of the fastest *)

Section Returns.
Context {World : Type}.
Implicit Types (ops : list (DeviceOp World)) (w : World) (b : Best).

(** The loop runs to its end when no run throws. *)
Lemma profile_loop_returns al m ops : forall i b w,
  (forall j a cfg, ~ In (ERun Profiling j a cfg Throws)
                        (trace (profile_loop World al m i ops b w))) ->
  exists b', res (profile_loop World al m i ops b w) = Normal b'.
Proof.
  induction ops as [|op ops IH]; intros i b w Hno.
  - now exists b.
  - loop_step op w.
    + apply IH. intros j a cfg Hin. apply (Hno j a cfg).
      apply in_app_iff. now right.
    + exfalso. apply (Hno i (profiling_argument al m) timed). simpl. tauto.
    + apply IH. intros j a cfg Hin. apply (Hno j a cfg).
      apply in_app_iff. now right.
Qed.
End Returns.

(** C1, as stated, fails: the list is not empty, its only instance is
    supported and is measured, with a valid [float] as its time, and the
    selection finds nothing. The running minimum starts at
    [std::numeric_limits<float>::max()] and the comparison is strict. *)
Lemma slowest_not_selected :
  slowest_ops <> [] /\
  F32.valid F32.max = true /\
  measured aligned_in_main scenario_buffers slowest_ops tt 0 F32.max /\
  res (select unit aligned_in_main scenario_buffers slowest_ops tt) =
    Normal init_best /\
  ~ selects_first_minimum aligned_in_main scenario_buffers slowest_ops tt.
Proof.
  assert (Hres : res (select unit aligned_in_main scenario_buffers slowest_ops tt)
                 = Normal init_best) by (vm_compute; reflexivity).
  split; [discriminate|split; [reflexivity|split; [|split; [exact Hres|]]]].
  - unfold measured. vm_compute. tauto.
  - intros (b & k & Hb & Hf & _). rewrite Hres in Hb. injection Hb as <-.
    discriminate.
Qed.

(** C1, amended. For every list of instances in which every profiling run
    returns and at least one measured time is strictly below
    [std::numeric_limits<float>::max()], the selection returns the instance
    with the minimal measured time and, among several with that time, the one
    with the smallest index, together with its name; an instance whose time
    equals the running best never replaces it. With the times 5.0, 3.2 and
    3.2 of three supported instances, index 1 is selected with 3.2. *)
Theorem selects_first_of_fastest World al m (ops : list (DeviceOp World)) w :
  (forall i a cfg,
     ~ In (ERun Profiling i a cfg Throws) (trace (select World al m ops w))) ->
  (exists i t, measured al m ops w i t /\ F32.ltb t F32.max = true) ->
  selects_first_minimum al m ops w /\
  (forall b, res (select World al m ops w) = Normal b ->
     exists op, ops !! Z.to_nat (best_op_id b) = Some op /\
                best_op_name b = GetTypeString op).
Proof.
  intros Hno (i & t & Hm & Hlt).
  destruct (profile_loop_returns al m ops 0%nat init_best w) as [b Hb].
  { intros j a cfg Hin. apply (Hno j a cfg). rewrite select_unfold.
    cbn [trace after]. right. right. exact Hin. }
  assert (Hres : res (select World al m ops w) = Normal b)
    by (rewrite select_unfold; exact Hb).
  pose proof (select_best_inv _ _ _ _ _ Hres) as Hinv.
  assert (Hf : found b = true).
  { destruct (found b) eqn:Hf; [reflexivity|].
    pose proof (inv_lower _ _ _ Hinv _ _ Hm) as Hl.
    rewrite (ltb_false_of_max _ _ _ Hinv Hf) in Hl. congruence. }
  destruct (inv_some _ _ _ Hinv Hf) as (k & op & Hk & Hop & Hname & Hmk & _ & _ & Htie).
  split.
  - exists b, k. repeat split; try assumption.
    exact (inv_lower _ _ _ Hinv).
  - intros b' Hb'. rewrite Hres in Hb'. injection Hb' as <-.
    exists op. rewrite Hk, Nat2Z.id. split; assumption.
Qed.

Lemma selects_first_of_fastest_witness :
  selects_first_minimum aligned_in_main scenario_buffers scenario_ops tt /\
  (forall b,
     res (select unit aligned_in_main scenario_buffers scenario_ops tt) = Normal b ->
     exists op, scenario_ops !! Z.to_nat (best_op_id b) = Some op /\
                best_op_name b = GetTypeString op).
Proof.
  apply (selects_first_of_fastest unit aligned_in_main scenario_buffers
           scenario_ops tt).
  - intros i a cfg. vm_compute. intuition discriminate.
  - exists 1%nat, ms_3_2. split; [unfold measured; vm_compute; tauto|reflexivity].
Defined.

(** The scenario itself: index 1 wins with 3.2 ms, index 2 is profiled with
    the same time and does not replace it. *)
Example scenario_selects_index_1 :
  res (select unit aligned_in_main scenario_buffers scenario_ops tt) =
    Normal {| found := true; best_op_id := 1; best_op_name := "B";
              best_ave_time := ms_3_2;
              best_gb_per_sec := gb_per_sec_of num_bytes ms_3_2 |} /\
  measured aligned_in_main scenario_buffers scenario_ops tt 2 ms_3_2.
Proof. split; [vm_compute; reflexivity|unfold measured; vm_compute; tauto]. Qed.


(** * Further properties of [main] *)

(** ** Composition of the loop *)

Section Compose.
Context {World : Type}.
Implicit Types (ops : list (DeviceOp World)) (w : World) (b : Best).



End Compose.

(** ** How [main] ends *)

Section Ending.
Context {World : Type}.
Implicit Types (ops : list (DeviceOp World)) (w : World) (b : Best).

Lemma profile_loop_outcome al m ops : forall i b w,
  res (profile_loop World al m i ops b w) <> Aborted /\
  (res (profile_loop World al m i ops b w) = Uncaught ->
   exists j, In (ERun Profiling j (profiling_argument al m) timed Throws)
                (trace (profile_loop World al m i ops b w))).
Proof.
  induction ops as [|op ops IH]; intros i b w.
  - split; discriminate.
  - loop_step op w.
    + destruct (IH (S i) (update_best i (GetTypeString op) t b) w2) as [H1 H2].
      split; [exact H1|]. intros Hu. destruct (H2 Hu) as [j Hj].
      exists j. apply in_app_iff. now right.
    + split; [discriminate|]. intros _. exists i. simpl. tauto.
    + destruct (IH (S i) b w1) as [H1 H2].
      split; [exact H1|]. intros Hu. destruct (H2 Hu) as [j Hj].
      exists j. apply in_app_iff. now right.
Qed.


Lemma select_outcome al m ops w :
  res (select World al m ops w) <> Aborted /\
  (res (select World al m ops w) = Uncaught ->
   exists j, In (ERun Profiling j (profiling_argument al m) timed Throws)
                (trace (select World al m ops w))).
Proof.
  rewrite select_unfold. cbn [res trace after].
  destruct (profile_loop_outcome al m ops 0%nat init_best w) as [H1 H2].
  split; [exact H1|]. intros Hu. destruct (H2 Hu) as [j Hj].
  exists j. right. right. exact Hj.
Qed.
End Ending.


(** ** The sweep over the instances *)

Section Sweep.
Context {World : Type}.
Implicit Types (ops : list (DeviceOp World)) (w : World) (b : Best).

Lemma checked_indices_app t1 t2 :
  checked_indices (t1 ++ t2) = checked_indices t1 ++ checked_indices t2.
Proof. apply flat_map_app. Qed.

Lemma report_names_app t1 t2 :
  report_names (t1 ++ t2) = report_names t1 ++ report_names t2.
Proof. apply flat_map_app. Qed.

Lemma profile_loop_checked al m ops : forall i b w,
  exists k, (k <= length ops)%nat /\
    checked_indices (trace (profile_loop World al m i ops b w)) = seq i k /\
    (forall b', res (profile_loop World al m i ops b w) = Normal b' ->
       k = length ops).
Proof.
  induction ops as [|op ops IH]; intros i b w.
  - exists 0%nat. repeat split; reflexivity || lia.
  - loop_step op w.
    + destruct (IH (S i) (update_best i (GetTypeString op) t b) w2)
        as (k & Hk & Hc & Hn).
      exists (S k). cbn [length]. split; [lia|split].
      * rewrite checked_indices_app, Hc. reflexivity.
      * intros b' Hb'. now rewrite (Hn b' Hb').
    + exists 1%nat. cbn [length]. split; [lia|split; [reflexivity|discriminate]].
    + destruct (IH (S i) b w1) as (k & Hk & Hc & Hn).
      exists (S k). cbn [length]. split; [lia|split].
      * rewrite checked_indices_app, Hc. reflexivity.
      * intros b' Hb'. now rewrite (Hn b' Hb').
Qed.

Lemma profile_loop_reported al m ops : forall i b w,
  exists k, (k <= length ops)%nat /\
    report_names (trace (profile_loop World al m i ops b w)) =
      map GetTypeString (take k ops) /\
    (forall b', res (profile_loop World al m i ops b w) = Normal b' ->
       k = length ops).
Proof.
  induction ops as [|op ops IH]; intros i b w.
  - exists 0%nat. repeat split; reflexivity || lia.
  - loop_step op w.
    + destruct (IH (S i) (update_best i (GetTypeString op) t b) w2)
        as (k & Hk & Hc & Hn).
      exists (S k). cbn [length]. split; [lia|split].
      * rewrite report_names_app, Hc. reflexivity.
      * intros b' Hb'. now rewrite (Hn b' Hb').
    + exists 0%nat. cbn [length]. split; [lia|split; [reflexivity|discriminate]].
    + destruct (IH (S i) b w1) as (k & Hk & Hc & Hn).
      exists (S k). cbn [length]. split; [lia|split].
      * rewrite report_names_app, Hc. reflexivity.
      * intros b' Hb'. now rewrite (Hn b' Hb').
Qed.

Lemma run_best_not_observed al m ops b w :
  checked_indices (trace (run_best World al m ops b w)) = [] /\
  report_names (trace (run_best World al m ops b w)) = [].
Proof.
  destruct (found b) eqn:Hf.
  - destruct (at_ ops (best_op_id b)) as [op|] eqn:Hop.
    + rewrite (run_best_found _ _ _ _ _ _ Hf Hop). cbn zeta.
      destruct (IsSupportedArgument op _ w) as [[|] w1].
      * destruct (Run op _ untimed w1) as [[t|] w2]; split; reflexivity.
      * split; reflexivity.
    + rewrite (run_best_out_of_range _ _ _ _ _ Hf Hop). split; reflexivity.
  - rewrite (run_best_not_found _ _ _ _ _ Hf). split; reflexivity.
Qed.

Lemma main_observed ndebug m ops w :
  checked_indices (trace (main World ndebug m ops w)) =
    checked_indices (trace (profile_loop World aligned_in_main m 0 ops init_best w)) /\
  report_names (trace (main World ndebug m ops w)) =
    report_names (trace (profile_loop World aligned_in_main m 0 ops init_best w)).
Proof.
  rewrite main_trace, checked_indices_app, report_names_app, select_unfold.
  cbn [res world trace after].
  destruct (res (profile_loop World aligned_in_main m 0 ops init_best w)) as [b| |].
  - destruct (run_best_not_observed aligned_in_main m ops b
                (world (profile_loop World aligned_in_main m 0 ops init_best w)))
      as [-> ->].
    rewrite !app_nil_r. split; reflexivity.
  - rewrite !app_nil_r. split; reflexivity.
  - rewrite !app_nil_r. split; reflexivity.
Qed.

Lemma main_profiling_returns ndebug m ops w :
  (forall i a cfg,
     ~ In (ERun Profiling i a cfg Throws) (trace (main World ndebug m ops w))) ->
  exists b, res (profile_loop World aligned_in_main m 0 ops init_best w) = Normal b.
Proof.
  intros Hno. apply profile_loop_returns. intros j a cfg Hin.
  apply (Hno j a cfg). rewrite main_trace, select_unfold. cbn [trace after].
  apply in_app_iff. left. right. right. exact Hin.
Qed.
End Sweep.

(** X2. The profiling loop checks the instances in registration order, each
    one once and none twice: the instances whose support is checked are
    always [0 .. k-1] for some [k] up to the number of instances, and when no
    profiling run throws they are all of them. *)
Theorem profiling_sweep World ndebug m (ops : list (DeviceOp World)) w :
  (forall i a cfg,
     ~ In (ERun Profiling i a cfg Throws) (trace (main World ndebug m ops w))) ->
  checked_indices (trace (main World ndebug m ops w)) = seq 0 (length ops).
Proof.
  intros Hno. destruct (main_profiling_returns _ _ _ _ Hno) as [b Hb].
  rewrite (proj1 (main_observed ndebug m ops w)).
  destruct (profile_loop_checked aligned_in_main m ops 0%nat init_best w)
    as (k & _ & Hc & Hn).
  now rewrite Hc, (Hn b Hb).
Qed.

Lemma profiling_sweep_witness :
  checked_indices (trace (main unit false scenario_buffers mixed_ops tt)) =
  seq 0 (length mixed_ops).
Proof.
  apply (profiling_sweep unit false scenario_buffers mixed_ops tt).
  intros i a cfg. vm_compute. intuition discriminate.
Defined.

(** X3. Whatever the instances answer, the instances checked while profiling
    are an initial segment of the registration order, without gap or
    repetition: a run that throws cuts the sweep short, nothing else does. *)
Theorem checked_initial_segment World ndebug m (ops : list (DeviceOp World)) w :
  exists k, (k <= length ops)%nat /\
    checked_indices (trace (main World ndebug m ops w)) = seq 0 k /\
    NoDup (checked_indices (trace (main World ndebug m ops w))).
Proof.
  rewrite (proj1 (main_observed ndebug m ops w)).
  destruct (profile_loop_checked aligned_in_main m ops 0%nat init_best w)
    as (k & Hk & Hc & _).
  exists k. rewrite Hc. repeat split; [exact Hk|apply NoDup_seq].
Qed.

(** X4. When no profiling run throws, [main] prints one line per instance
    ("Perf: ..." for a supported one, "... does not support this problem"
    otherwise), in registration order and with the name of that instance. *)
Theorem one_report_per_instance World ndebug m (ops : list (DeviceOp World)) w :
  (forall i a cfg,
     ~ In (ERun Profiling i a cfg Throws) (trace (main World ndebug m ops w))) ->
  report_names (trace (main World ndebug m ops w)) = map GetTypeString ops.
Proof.
  intros Hno. destruct (main_profiling_returns _ _ _ _ Hno) as [b Hb].
  rewrite (proj2 (main_observed ndebug m ops w)).
  destruct (profile_loop_reported aligned_in_main m ops 0%nat init_best w)
    as (k & _ & Hc & Hn).
  rewrite Hc, (Hn b Hb). now rewrite firstn_all.
Qed.

Lemma one_report_per_instance_witness :
  report_names (trace (main unit false scenario_buffers mixed_ops tt)) =
  map GetTypeString mixed_ops.
Proof.
  apply (one_report_per_instance unit false scenario_buffers mixed_ops tt).
  intros i a cfg. vm_compute. intuition discriminate.
Defined.

(** ** What happens to one instance *)

Section OneInstance.
Context {World : Type}.
Implicit Types (ops : list (DeviceOp World)) (w : World) (b : Best).

Lemma profile_loop_index al m ops i b w e j :
  In e (trace (profile_loop World al m i ops b w)) ->
  event_index e = Some j -> (i <= j < i + length ops)%nat.
Proof.
  intros Hin Hj.
  pose proof (profile_loop_events al m ops i b w) as H.
  rewrite Forall_forall in H. apply list_elem_of_In, H in Hin.
  destruct e as [ph k a|ph k|ph k a r|ph k a cfg r|l]; simpl in *;
    try discriminate; injection Hj as ->; tauto.
Qed.

(** An instance that answers unsupported is not run in the loop, and its
    line is printed. *)
Lemma profile_loop_unsupported al m ops : forall pre i b w j a,
  length pre = i ->
  In (EIsSupported Profiling j a false) (trace (profile_loop World al m i ops b w)) ->
  (forall ph a' cfg r,
     ~ In (ERun ph j a' cfg r) (trace (profile_loop World al m i ops b w))) /\
  exists op, (pre ++ ops) !! j = Some op /\
    In (EOut (LUnsupported (GetTypeString op)))
       (trace (profile_loop World al m i ops b w)).
Proof.
  induction ops as [|op ops IH]; intros pre i b w j a Hlen Hin.
  - contradiction.
  - assert (Hop : (pre ++ op :: ops) !! i = Some op).
    { rewrite <- Hlen. rewrite list_lookup_middle; reflexivity. }
    assert (Hpre : pre ++ op :: ops = (pre ++ [op]) ++ ops)
      by now rewrite <- app_assoc.
    assert (Hlen' : length (pre ++ [op]) = S i)
      by (rewrite length_app; simpl; lia).
    assert (Hlater : forall b' w' ph a' cfg r,
      In (ERun ph i a' cfg r) (trace (profile_loop World al m (S i) ops b' w')) ->
      False).
    { intros b' w' ph a' cfg r H.
      pose proof (profile_loop_index _ _ _ _ _ _ _ i H eq_refl). lia. }
    loop_step op w.
    + apply in_app_iff in Hin as [Hin|Hin]; [simpl in Hin; intuition discriminate|].
      pose proof (profile_loop_index _ _ _ _ _ _ _ j Hin eq_refl) as Hj.
      destruct (IH (pre ++ [op]) _ _ _ _ _ Hlen' Hin) as (Hno & op' & H1 & H2).
      split.
      * intros ph a' cfg r H. apply in_app_iff in H as [H|H];
          [|now apply Hno in H].
        simpl in H. destruct H as [H|[H|[H|[H|[H|[]]]]]]; try discriminate.
        injection H as _ Hi _ _ _. lia.
      * exists op'. rewrite Hpre. split; [exact H1|].
        apply in_app_iff. now right.
    + simpl in Hin. intuition discriminate.
    + apply in_app_iff in Hin as [Hin|Hin].
      * simpl in Hin. destruct Hin as [H|[H|[H|[H|[]]]]]; try discriminate.
        injection H as <- <-. split.
        -- intros ph a' cfg r H. apply in_app_iff in H as [H|H].
           ++ now apply In_run_turn_unsupported in H.
           ++ now apply Hlater in H.
        -- exists op. split; [exact Hop|]. apply in_app_iff. left. simpl. tauto.
      * pose proof (profile_loop_index _ _ _ _ _ _ _ j Hin eq_refl) as Hj.
        destruct (IH (pre ++ [op]) _ _ _ _ _ Hlen' Hin) as (Hno & op' & H1 & H2).
        split.
        -- intros ph a' cfg r H. apply in_app_iff in H as [H|H];
             [now apply In_run_turn_unsupported in H|now apply Hno in H].
        -- exists op'. rewrite Hpre. split; [exact H1|].
           apply in_app_iff. now right.
Qed.

(** An instance is run with timing at most once. *)
Lemma profile_loop_run_once al m ops : forall i b w j a a' cfg cfg' r r',
  In (ERun Profiling j a cfg r) (trace (profile_loop World al m i ops b w)) ->
  In (ERun Profiling j a' cfg' r') (trace (profile_loop World al m i ops b w)) ->
  r = r'.
Proof.
  induction ops as [|op ops IH]; intros i b w j a a' cfg cfg' r r' H1 H2.
  - contradiction.
  - assert (Hhere : forall turn b' w' a0 cfg0 r0,
      (forall e, In e turn -> event_index e = Some i \/ event_index e = None) ->
      In (ERun Profiling j a0 cfg0 r0)
         (turn ++ trace (profile_loop World al m (S i) ops b' w')) ->
      (j = i /\ In (ERun Profiling j a0 cfg0 r0) turn) \/
      ((S i <= j)%nat /\
       In (ERun Profiling j a0 cfg0 r0)
          (trace (profile_loop World al m (S i) ops b' w')))).
    { intros turn b' w' a0 cfg0 r0 Hturn H. apply in_app_iff in H as [H|H].
      - left. destruct (Hturn _ H) as [E|E]; simpl in E; [|discriminate].
        injection E as ->. tauto.
      - right. pose proof (profile_loop_index _ _ _ _ _ _ _ j H eq_refl).
        split; [lia|exact H]. }
    assert (Hturn : forall turn, Forall (fun e => event_index e = Some i \/
                                           event_index e = None) turn ->
      forall e, In e turn -> event_index e = Some i \/ event_index e = None).
    { intros turn Hf e He. rewrite Forall_forall in Hf.
      now apply Hf, list_elem_of_In. }
    loop_step op w.
    + assert (Ht : Forall (fun e => event_index e = Some i \/ event_index e = None)
                     (turn_profiled (profiling_argument al m) i (GetTypeString op) t))
        by (repeat constructor; simpl; tauto).
      apply (Hhere _ _ _ _ _ _ (Hturn _ Ht)) in H1.
      apply (Hhere _ _ _ _ _ _ (Hturn _ Ht)) in H2.
      destruct H1 as [[-> H1]|[Hj1 H1]], H2 as [[E2 H2]|[Hj2 H2]]; try lia.
      * apply In_run_turn_profiled in H1 as (_ & _ & _ & ->).
        apply In_run_turn_profiled in H2 as (_ & _ & _ & ->). reflexivity.
      * exact (IH _ _ _ _ _ _ _ _ _ _ H1 H2).
    + simpl in H1, H2.
      destruct H1 as [H|[H|[H|[H|[]]]]]; try discriminate.
      destruct H2 as [H'|[H'|[H'|[H'|[]]]]]; try discriminate.
      congruence.
    + assert (Ht : Forall (fun e => event_index e = Some i \/ event_index e = None)
                     (turn_unsupported (profiling_argument al m) i (GetTypeString op)))
        by (repeat constructor; simpl; tauto).
      apply (Hhere _ _ _ _ _ _ (Hturn _ Ht)) in H1.
      apply (Hhere _ _ _ _ _ _ (Hturn _ Ht)) in H2.
      destruct H1 as [[-> H1]|[Hj1 H1]], H2 as [[E2 H2]|[Hj2 H2]]; try lia.
      * now apply In_run_turn_unsupported in H1.
      * exact (IH _ _ _ _ _ _ _ _ _ _ H1 H2).
Qed.

Lemma measured_once al m ops w j t t' :
  measured al m ops w j t -> measured al m ops w j t' -> t = t'.
Proof.
  unfold measured. rewrite select_unfold. cbn [trace after].
  intros [H|[H|H]] [H'|[H'|H']]; try discriminate.
  pose proof (profile_loop_run_once _ _ _ _ _ _ _ _ _ _ _ _ _ H H') as E.
  now injection E.
Qed.
End OneInstance.

(** X5. An instance that answers that the argument is not supported is
    skipped and nothing more: its line "... does not support this problem" is
    printed with its name, [Run] is never called on it, neither in the loop
    nor afterwards, and it is not the best instance. *)
Theorem unsupported_never_run World ndebug m (ops : list (DeviceOp World)) w i a :
  In (EIsSupported Profiling i a false) (trace (main World ndebug m ops w)) ->
  (forall ph a' cfg r,
     ~ In (ERun ph i a' cfg r) (trace (main World ndebug m ops w))) /\
  (exists op, ops !! i = Some op /\
     In (EOut (LUnsupported (GetTypeString op)))
        (trace (main World ndebug m ops w))) /\
  (forall b, res (select World aligned_in_main m ops w) = Normal b ->
     best_op_id b <> Z.of_nat i).
Proof.
  intros Hin.
  apply main_events in Hin as [Hin|(b & _ & _ & Hin)].
  2:{ pose proof (run_best_events aligned_in_main m ops b
                    (world (select World aligned_in_main m ops w))) as H.
      rewrite Forall_forall in H. apply list_elem_of_In, H in Hin.
      destruct Hin as (Hd & _). discriminate. }
  rewrite select_unfold in Hin. cbn [trace after] in Hin.
  destruct Hin as [Hd|[Hd|Hin]]; try discriminate.
  destruct (profile_loop_unsupported _ _ _ [] _ _ _ _ _ eq_refl Hin)
    as (Hno & op & Hop & Hline).
  assert (Hsel : forall ph a' cfg r,
    ~ In (ERun ph i a' cfg r) (trace (select World aligned_in_main m ops w))).
  { intros ph a' cfg r H. rewrite select_unfold in H. cbn [trace after] in H.
    destruct H as [Hd|[Hd|H]]; try discriminate. now apply Hno in H. }
  assert (Hbest : forall b, res (select World aligned_in_main m ops w) = Normal b ->
                            best_op_id b <> Z.of_nat i).
  { intros b Hres Hid. destruct (found b) eqn:Hf.
    - destruct (inv_some _ _ _ (select_best_inv _ _ _ _ _ Hres) Hf)
        as (k & _ & Hk & _ & _ & Hm & _).
      assert (k = i) by lia. subst k. now apply Hsel in Hm.
    - rewrite (inv_none _ _ _ (select_best_inv _ _ _ _ _ Hres) Hf) in Hid.
      simpl in Hid. lia. }
  split; [|split; [|exact Hbest]].
  - intros ph a' cfg r H.
    apply main_events in H as [H|(b & Hres & Hf & H)]; [now apply Hsel in H|].
    pose proof (run_best_events aligned_in_main m ops b
                  (world (select World aligned_in_main m ops w))) as Hev.
    rewrite Forall_forall in Hev. apply list_elem_of_In, Hev in H.
    destruct H as (_ & _ & _ & Hi).
    destruct (inv_some _ _ _ (select_best_inv _ _ _ _ _ Hres) Hf)
      as (k & _ & Hk & _).
    apply (Hbest b Hres). rewrite Hk in *. rewrite Nat2Z.id in Hi. now subst.
  - exists op. split; [exact Hop|].
    rewrite main_trace, select_unfold. cbn [trace after].
    apply in_app_iff. left. right. right. exact Hline.
Qed.

Lemma unsupported_never_run_witness :
  (forall ph a' cfg r,
     ~ In (ERun ph 2%nat a' cfg r)
          (trace (main unit false scenario_buffers mixed_ops tt))) /\
  (exists op, mixed_ops !! 2%nat = Some op /\
     In (EOut (LUnsupported (GetTypeString op)))
        (trace (main unit false scenario_buffers mixed_ops tt))) /\
  (forall b,
     res (select unit aligned_in_main scenario_buffers mixed_ops tt) = Normal b ->
     best_op_id b <> Z.of_nat 2).
Proof.
  apply (unsupported_never_run unit false scenario_buffers mixed_ops tt 2%nat
           (profiling_argument aligned_in_main scenario_buffers)).
  vm_compute. tauto.
Defined.

(** X6. When the selection returns, something is found exactly when some
    instance was measured strictly below [std::numeric_limits<float>::max()];
    [found] and [best_op_id] go together: [best_op_id] is an index of
    [op_ptrs] when [found] is set and is -1 when it is not. *)
Theorem found_iff_measured World al m (ops : list (DeviceOp World)) w b :
  res (select World al m ops w) = Normal b ->
  (found b = true <->
   exists i t, measured al m ops w i t /\ F32.ltb t F32.max = true) /\
  (found b = true <-> 0 <= best_op_id b < Z.of_nat (length ops)) /\
  (found b = false <-> best_op_id b = -1).
Proof.
  intros Hres. pose proof (select_best_inv _ _ _ _ _ Hres) as Hinv.
  assert (Hidx : found b = true -> 0 <= best_op_id b < Z.of_nat (length ops)).
  { intros Hf.
    destruct (inv_some _ _ _ Hinv Hf) as (k & op & Hk & Hop & _).
    apply lookup_lt_Some in Hop. lia. }
  assert (Hnone : found b = false -> best_op_id b = -1).
  { intros Hf. now rewrite (inv_none _ _ _ Hinv Hf). }
  split; [|split].
  - split.
    + intros Hf.
      destruct (inv_some _ _ _ Hinv Hf) as (k & op & _ & _ & _ & Hm & _ & Hlt & _).
      exists k, (best_ave_time b). split; assumption.
    + intros (i & t & Hm & Hlt).
      destruct (found b) eqn:Hf; [reflexivity|].
      pose proof (inv_lower _ _ _ Hinv _ _ Hm) as Hl.
      rewrite (ltb_false_of_max _ _ _ Hinv Hf) in Hl. congruence.
  - split; [exact Hidx|].
    intros Hr. destruct (found b) eqn:Hf; [reflexivity|].
    specialize (Hnone eq_refl). lia.
  - split; [exact Hnone|].
    intros Hr. destruct (found b) eqn:Hf; [|reflexivity].
    specialize (Hidx eq_refl). lia.
Qed.

Lemma found_iff_measured_witness :
  (true = true <->
   exists i t, measured aligned_in_main scenario_buffers scenario_ops tt i t /\
               F32.ltb t F32.max = true) /\
  (true = true <-> 0 <= 1 < Z.of_nat (length scenario_ops)) /\
  (true = false <-> 1 = -1).
Proof.
  apply (found_iff_measured unit aligned_in_main scenario_buffers scenario_ops tt
           {| found := true; best_op_id := 1; best_op_name := "B";
              best_ave_time := ms_3_2;
              best_gb_per_sec := gb_per_sec_of num_bytes ms_3_2 |}).
  vm_compute. reflexivity.
Defined.

(** X7. An instance whose measured time is not strictly below
    [std::numeric_limits<float>::max()] (that value itself, an infinity or a
    NaN) is never the best instance, whatever the other instances measure;
    for a NaN time the throughput computed at line 133 is a NaN as well. *)
Theorem not_below_max_never_selected World al m (ops : list (DeviceOp World)) w j t b :
  measured al m ops w j t ->
  F32.ltb t F32.max = false ->
  res (select World al m ops w) = Normal b ->
  best_op_id b <> Z.of_nat j /\
  (t = S754_nan -> forall bytes, gb_per_sec_of bytes t = S754_nan).
Proof.
  intros Hm Hnot Hres. split.
  - intros Hid. pose proof (select_best_inv _ _ _ _ _ Hres) as Hinv.
    destruct (found b) eqn:Hf.
    + destruct (inv_some _ _ _ Hinv Hf) as (k & _ & Hk & _ & _ & Hmk & _ & Hlt & _).
      assert (k = j) by lia. subst k.
      rewrite (measured_once _ _ _ _ _ _ _ Hm Hmk) in Hnot. congruence.
    + rewrite (inv_none _ _ _ Hinv Hf) in Hid. simpl in Hid. lia.
  - intros -> bytes. unfold gb_per_sec_of, F64.div, F64.of_float, F32.of_double.
    now destruct (SFdiv F64.prec F64.emax (F64.of_Z bytes) (F64.of_Z 1000000)).
Qed.

Lemma not_below_max_never_selected_witness :
  1 <> Z.of_nat 0 /\
  (S754_nan = S754_nan -> forall bytes, gb_per_sec_of bytes S754_nan = S754_nan).
Proof.
  apply (not_below_max_never_selected unit aligned_in_main scenario_buffers
           nan_ops tt 0%nat S754_nan
           {| found := true; best_op_id := 1; best_op_name := "B";
              best_ave_time := ms_3_2;
              best_gb_per_sec := gb_per_sec_of num_bytes ms_3_2 |}).
  - unfold measured. vm_compute. tauto.
  - reflexivity.
  - vm_compute. reflexivity.
Defined.

(** ** The run of the best instance *)

Section BestRun.
Context {World : Type}.
Implicit Types (ops : list (DeviceOp World)) (w : World) (b : Best).

(** The ways [main] can go after the selection. *)
Lemma main_shape ndebug m ops w :
  let s := select World aligned_in_main m ops w in
  let r := main World ndebug m ops w in
  (res s = Uncaught /\ res r = Uncaught /\ trace r = trace s) \/
  (exists b, res s = Normal b /\ found b = false /\
     res r = Normal 0 /\ trace r = trace s) \/
  (exists b op tail,
     res s = Normal b /\ found b = true /\
     ops !! Z.to_nat (best_op_id b) = Some op /\
     best_op_name b = GetTypeString op /\
     trace r = trace s ++
               best_prefix op (production_argument aligned_in_main m) b ++ tail /\
     let id := Z.to_nat (best_op_id b) in
     let a := production_argument aligned_in_main m in
     ((tail = [EIsSupported Production id a false; EOut LDone] /\
       res r = Normal 0) \/
      (exists t, tail = [EIsSupported Production id a true;
                         ERun Production id a untimed (Elapsed t); EOut LDone] /\
                 res r = Normal 0) \/
      (tail = [EIsSupported Production id a true;
               ERun Production id a untimed Throws] /\
       res r = Uncaught))).
Proof.
  cbn zeta. rewrite main_trace, main_unfold. cbn zeta.
  destruct (select_outcome aligned_in_main m ops w) as [Hna _].
  destruct (res (select World aligned_in_main m ops w)) as [b| |] eqn:Hres.
  - right. destruct (found b) eqn:Hf.
    + right.
      destruct (select_best_in_range _ _ _ _ _ Hres Hf)
        as (k & op & Hk & Hat & Hop & Hname).
      rewrite (run_best_found _ _ _ _ _ _ Hf Hat). cbn zeta.
      assert (Hop' : ops !! Z.to_nat (best_op_id b) = Some op)
        by now rewrite Hk, Nat2Z.id.
      destruct (IsSupportedArgument op _ _) as [[|] w1].
      * destruct (Run op _ untimed w1) as [[t|] w2]; cbn [res trace].
        -- eexists b, op, _. repeat split; try eassumption.
           right. left. exists t. split; reflexivity.
        -- eexists b, op, _. repeat split; try eassumption.
           right. right. split; reflexivity.
      * cbn [res trace]. eexists b, op, _. repeat split; try eassumption.
        left. split; reflexivity.
    + left. exists b. rewrite (run_best_not_found _ _ _ _ _ Hf). cbn [res trace].
      rewrite app_nil_r. repeat split; assumption.
  - left. cbn [res trace]. rewrite app_nil_r. repeat split.
  - now contradiction Hna.
Qed.

Lemma production_runs_app t1 t2 :
  production_runs (t1 ++ t2) = production_runs t1 ++ production_runs t2.
Proof. apply flat_map_app. Qed.

Lemma select_no_production al m ops w :
  production_runs (trace (select World al m ops w)) = [] /\
  ~ In (EOut LDone) (trace (select World al m ops w)) /\
  (forall n, ~ In (EOut (LRunBest n)) (trace (select World al m ops w))).
Proof.
  assert (H : forall tr,
    (forall e, In e tr ->
       e = EOut (LFound (length ops)) \/ e = EOut LRunAll \/
       loop_event al m 0 (length ops) e) ->
    production_runs tr = []).
  { induction tr as [|e tr IH]; intros He; [reflexivity|].
    change (e :: tr) with ([e] ++ tr). rewrite production_runs_app.
    rewrite IH by (intros e' He'; apply He; now right). rewrite app_nil_r.
    destruct (He e (or_introl eq_refl)) as [->|[->|Hl]]; try reflexivity.
    destruct e as [ph j a|ph j|ph j a r|ph j a cfg r|l]; try reflexivity.
    destruct Hl as (-> & _). reflexivity. }
  split; [|split].
  - apply H. intros e. apply select_events.
  - intros Hin. apply select_events in Hin as [Hd|[Hd|Hl]]; try discriminate.
    exact Hl.
  - intros n Hin. apply select_events in Hin as [Hd|[Hd|Hl]]; try discriminate.
    exact Hl.
Qed.
End BestRun.

(** X8. [Run] is called without timing at most once in an execution of
    [main], and only on the instance at [best_op_id]: an instance that was
    checked as supported and measured in the profiling loop, whose time is
    [best_ave_time], and that has just been checked again on the same
    argument. *)
Theorem production_run_is_best World ndebug m (ops : list (DeviceOp World)) w :
  (length (production_runs (trace (main World ndebug m ops w))) <= 1)%nat /\
  (forall k a cfg r,
     In (ERun Production k a cfg r) (trace (main World ndebug m ops w)) ->
     exists b,
       res (select World aligned_in_main m ops w) = Normal b /\
       found b = true /\
       best_op_id b = Z.of_nat k /\
       measured aligned_in_main m ops w k (best_ave_time b) /\
       In (EIsSupported Profiling k a true) (trace (main World ndebug m ops w)) /\
       In (EIsSupported Production k a true) (trace (main World ndebug m ops w))).
Proof.
  destruct (select_no_production aligned_in_main m ops w) as (Hp & _ & _).
  destruct (main_shape ndebug m ops w) as
    [(_ & _ & Htr)|[(b & _ & _ & _ & Htr)|(b & op & tail & Hres & Hf & Hop & Hname & Htr & Ht)]];
    cbn zeta in *.
  - rewrite Htr, Hp. split; [simpl; lia|].
    intros k a cfg r Hin. apply select_events in Hin as [H|[H|H]]; try discriminate.
    destruct H as (H & _). discriminate.
  - rewrite Htr, Hp. split; [simpl; lia|].
    intros k a cfg r Hin. apply select_events in Hin as [H|[H|H]]; try discriminate.
    destruct H as (H & _). discriminate.
  - split.
    + rewrite Htr, !production_runs_app, Hp.
      destruct Ht as [[-> _]|[(t & -> & _)|[-> _]]]; simpl; lia.
    + intros k a cfg r Hin.
      destruct (inv_some _ _ _ (select_best_inv _ _ _ _ _ Hres) Hf)
        as (j & _ & Hj & _ & _ & Hm & _).
      assert (Hka : k = j /\ a = production_argument aligned_in_main m /\
                    In (EIsSupported Production k a true) tail).
      { rewrite Htr in Hin. apply in_app_iff in Hin as [Hin|Hin].
        - apply select_events in Hin as [H|[H|H]]; try discriminate.
          destruct H as (H & _). discriminate.
        - apply in_app_iff in Hin as [Hin|Hin];
            [simpl in Hin; intuition discriminate|].
          rewrite Hj, Nat2Z.id in Ht.
          destruct Ht as [[-> _]|[(t & -> & _)|[-> _]]]; simpl in Hin;
            repeat (destruct Hin as [H|Hin];
                    [try discriminate H; injection H as <- <- _ _;
                     repeat split; simpl; tauto|]);
            contradiction. }
      destruct Hka as (-> & -> & Hchk).
      exists b. repeat split; try assumption.
      * pose proof Hm as Hrun. unfold measured in Hrun.
        assert (Hmain : In (ERun Profiling j (profiling_argument aligned_in_main m)
                              timed (Elapsed (best_ave_time b)))
                           (trace (main World ndebug m ops w))).
        { rewrite Htr. apply in_app_iff. now left. }
        apply List.in_split in Hmain as (pre & post & Hsplit).
        destruct (main_guarded ndebug m ops w _ _ _ _ _ _ _ Hsplit) as [pre' ->].
        rewrite Hsplit. apply in_app_iff. left. apply in_app_iff. right.
        simpl. tauto.
      * rewrite Htr. apply in_app_iff. right. apply in_app_iff. now right.
Qed.

Lemma production_run_is_best_witness :
  exists b,
    res (select unit aligned_in_main scenario_buffers scenario_ops tt) = Normal b /\
    found b = true /\
    best_op_id b = Z.of_nat 1 /\
    measured aligned_in_main scenario_buffers scenario_ops tt 1 (best_ave_time b) /\
    In (EIsSupported Profiling 1
          (production_argument aligned_in_main scenario_buffers) true)
       (trace scenario_run) /\
    In (EIsSupported Production 1
          (production_argument aligned_in_main scenario_buffers) true)
       (trace scenario_run).
Proof.
  apply (proj2 (production_run_is_best unit false scenario_buffers scenario_ops tt)
           1%nat (production_argument aligned_in_main scenario_buffers) untimed
           (Elapsed ms_3_2)).
  vm_compute. tauto.
Defined.

(** X9. "Done" is printed exactly when the selection found an instance and
    [main] returned; it is then the last thing [main] prints. When nothing is
    found [main] returns 0 without printing "Done". *)
Theorem done_iff_found_and_returned World ndebug m (ops : list (DeviceOp World)) w :
  (In (EOut LDone) (trace (main World ndebug m ops w)) <->
   res (main World ndebug m ops w) = Normal 0 /\
   exists b, res (select World aligned_in_main m ops w) = Normal b /\
             found b = true) /\
  (In (EOut LDone) (trace (main World ndebug m ops w)) ->
   last (trace (main World ndebug m ops w)) = Some (EOut LDone)).
Proof.
  destruct (select_no_production aligned_in_main m ops w) as (_ & Hd & _).
  destruct (main_shape ndebug m ops w) as
    [(Hs & Hr & Htr)|[(b & Hs & Hf & Hr & Htr)|(b & op & tail & Hs & Hf & _ & _ & Htr & Ht)]];
    cbn zeta in *.
  - rewrite Htr, Hr. split; [split|]; try tauto.
    intros [H _]. discriminate.
  - rewrite Htr, Hr. split; [split|]; try tauto.
    intros (_ & b' & Hb' & Hf'). congruence.
  - rewrite Htr. rewrite !app_assoc.
    destruct Ht as [[-> Hr]|[(t & -> & Hr)|[-> Hr]]]; rewrite Hr.
    + split; [split|].
      * intros _. split; [reflexivity|]. now exists b.
      * intros _. apply in_app_iff. right. simpl. tauto.
      * intros _.
        change [EIsSupported Production (Z.to_nat (best_op_id b))
                  (production_argument aligned_in_main m) false; EOut LDone]
          with ([EIsSupported Production (Z.to_nat (best_op_id b))
                   (production_argument aligned_in_main m) false] ++ [EOut LDone]).
        rewrite app_assoc. apply last_snoc.
    + split; [split|].
      * intros _. split; [reflexivity|]. now exists b.
      * intros _. apply in_app_iff. right. simpl. tauto.
      * intros _.
        change [EIsSupported Production (Z.to_nat (best_op_id b))
                  (production_argument aligned_in_main m) true;
                ERun Production (Z.to_nat (best_op_id b))
                  (production_argument aligned_in_main m) untimed (Elapsed t);
                EOut LDone]
          with ([EIsSupported Production (Z.to_nat (best_op_id b))
                   (production_argument aligned_in_main m) true;
                 ERun Production (Z.to_nat (best_op_id b))
                   (production_argument aligned_in_main m) untimed (Elapsed t)]
                ++ [EOut LDone]).
        rewrite app_assoc. apply last_snoc.
    + assert (Hno : ~ In (EOut LDone)
                ((trace (select World aligned_in_main m ops w) ++
                  best_prefix op (production_argument aligned_in_main m) b) ++
                 [EIsSupported Production (Z.to_nat (best_op_id b))
                    (production_argument aligned_in_main m) true;
                  ERun Production (Z.to_nat (best_op_id b))
                    (production_argument aligned_in_main m) untimed Throws])).
      { intros H. apply in_app_iff in H as [H|H];
          [apply in_app_iff in H as [H|H]; [exact (Hd H)|]|];
          simpl in H; intuition discriminate. }
      split; [split|]; try tauto. intros [H _]. discriminate.
Qed.

(** X10. If the untimed [Run] of the best instance throws, nothing catches
    it either: the exception leaves [main], the failed call is the last thing
    [main] does and "Done" is not printed. *)
Theorem production_failure_aborts World ndebug m (ops : list (DeviceOp World)) w i a cfg :
  In (ERun Production i a cfg Throws) (trace (main World ndebug m ops w)) ->
  res (main World ndebug m ops w) = Uncaught /\
  last (trace (main World ndebug m ops w)) = Some (ERun Production i a cfg Throws) /\
  ~ In (EOut LDone) (trace (main World ndebug m ops w)).
Proof.
  intros Hin.
  destruct (select_no_production aligned_in_main m ops w) as (_ & Hd & _).
  assert (Hsel : ~ In (ERun Production i a cfg Throws)
                      (trace (select World aligned_in_main m ops w))).
  { intros H. apply select_events in H as [H|[H|H]]; try discriminate.
    destruct H as (H & _). discriminate. }
  destruct (main_shape ndebug m ops w) as
    [(Hs & Hr & Htr)|[(b & Hs & Hf & Hr & Htr)|(b & op & tail & Hs & Hf & _ & _ & Htr & Ht)]];
    cbn zeta in *; rewrite Htr in *; try tauto.
  rewrite !in_app_iff in Hin. destruct Hin as [Hin|[Hin|Hin]]; [tauto| |].
  { simpl in Hin. intuition discriminate. }
  destruct Ht as [[-> Hr]|[(t & -> & Hr)|[-> Hr]]];
    try solve [simpl in Hin; intuition discriminate].
  simpl in Hin. destruct Hin as [H|[H|[]]]; try discriminate.
  injection H as <- <- <-.
  split; [exact Hr|split].
  - rewrite !app_assoc.
    change [EIsSupported Production (Z.to_nat (best_op_id b))
              (production_argument aligned_in_main m) true;
            ERun Production (Z.to_nat (best_op_id b))
              (production_argument aligned_in_main m) untimed Throws]
      with ([EIsSupported Production (Z.to_nat (best_op_id b))
               (production_argument aligned_in_main m) true] ++
            [ERun Production (Z.to_nat (best_op_id b))
               (production_argument aligned_in_main m) untimed Throws]).
    rewrite app_assoc. apply last_snoc.
  - intros H. apply in_app_iff in H as [H|H]; [exact (Hd H)|].
    apply in_app_iff in H as [H|H]; simpl in H; intuition discriminate.
Qed.

Lemma production_failure_aborts_witness :
  res (main nat false scenario_buffers [throws_untimed] 0%nat) = Uncaught /\
  last (trace (main nat false scenario_buffers [throws_untimed] 0%nat)) =
    Some (ERun Production 0 (production_argument aligned_in_main scenario_buffers)
               untimed Throws) /\
  ~ In (EOut LDone) (trace (main nat false scenario_buffers [throws_untimed] 0%nat)).
Proof.
  apply (production_failure_aborts nat false scenario_buffers [throws_untimed] 0%nat).
  vm_compute. tauto.
Defined.

(** X11. The two lines printed for the best instance, "Best Perf: ..." and
    "Run the best instance without timing: ...", carry the same name: the
    name kept in [best_op_name] during the loop is the name that
    [op_ptrs[best_op_id]] gives when asked again, and the time and the
    throughput printed are those kept with it. *)
Theorem best_lines_agree World ndebug m (ops : list (DeviceOp World)) w n :
  In (EOut (LRunBest n)) (trace (main World ndebug m ops w)) ->
  exists b op,
    res (select World aligned_in_main m ops w) = Normal b /\
    ops !! Z.to_nat (best_op_id b) = Some op /\
    n = GetTypeString op /\
    n = best_op_name b /\
    In (EOut (LBestPerf (best_ave_time b) (best_gb_per_sec b) n))
       (trace (main World ndebug m ops w)).
Proof.
  intros Hin.
  destruct (select_no_production aligned_in_main m ops w) as (_ & _ & Hn).
  destruct (main_shape ndebug m ops w) as
    [(Hs & Hr & Htr)|[(b & Hs & Hf & Hr & Htr)|(b & op & tail & Hs & Hf & Hop & Hname & Htr & Ht)]];
    cbn zeta in *; rewrite Htr in *; try (now apply Hn in Hin).
  rewrite !in_app_iff in Hin. destruct Hin as [Hin|[Hin|Hin]];
    [now apply Hn in Hin| |].
  - simpl in Hin. destruct Hin as [H|[H|[H|[H|[]]]]]; try discriminate.
    injection H as <-. exists b, op. repeat split; try assumption; try congruence.
    rewrite !in_app_iff. right. left. unfold best_prefix. rewrite Hname.
    simpl. tauto.
  - destruct Ht as [[-> _]|[(t & -> & _)|[-> _]]]; simpl in Hin;
      intuition discriminate.
Qed.

Lemma best_lines_agree_witness :
  exists b op,
    res (select unit aligned_in_main scenario_buffers scenario_ops tt) = Normal b /\
    scenario_ops !! Z.to_nat (best_op_id b) = Some op /\
    "B"%string = GetTypeString op /\
    "B"%string = best_op_name b /\
    In (EOut (LBestPerf (best_ave_time b) (best_gb_per_sec b) "B"))
       (trace scenario_run).
Proof.
  apply (best_lines_agree unit false scenario_buffers scenario_ops tt "B").
  vm_compute. tauto.
Defined.

Lemma done_iff_found_and_returned_witness :
  res scenario_run = Normal 0 /\
  exists b,
    res (select unit aligned_in_main scenario_buffers scenario_ops tt) = Normal b /\
    found b = true.
Proof.
  apply (proj1 (proj1 (done_iff_found_and_returned unit false scenario_buffers
                         scenario_ops tt))).
  vm_compute. tauto.
Defined.


(** ** The running best during the loop *)

Section RunningBest.
Context {World : Type}.
Implicit Types (ops : list (DeviceOp World)) (w : World) (b : Best).

Lemma update_best_improves i name t b :
  (update_best i name t b = b \/
   F32.ltb (best_ave_time (update_best i name t b)) (best_ave_time b) = true) /\
  (found b = true -> found (update_best i name t b) = true).
Proof.
  unfold update_best. destruct (F32.ltb t (best_ave_time b)) eqn:E; simpl; auto.
Qed.
End RunningBest.

(** X12. Through the profiling loop the running best only improves: from any
    running best, what the loop leaves is either that same record, untouched,
    or a record with a strictly smaller time; and once something is found it
    stays found. *)
Theorem running_best_only_improves World al m (ops : list (DeviceOp World)) :
  forall i b w b',
    res (profile_loop World al m i ops b w) = Normal b' ->
    (b' = b \/ F32.ltb (best_ave_time b') (best_ave_time b) = true) /\
    (found b = true -> found b' = true).
Proof.
  induction ops as [|op ops IH]; intros i b w b' Hres.
  - rewrite profile_loop_nil in Hres. injection Hres as <-. auto.
  - loop_step op w.
    + destruct (IH _ _ _ _ Hres) as [Hb Hf].
      destruct (update_best_improves i (GetTypeString op) t b) as [Hu Hfu].
      split; [|auto].
      destruct Hb as [->|Hb]; [exact Hu|].
      right. destruct Hu as [Hu|Hu]; [rewrite Hu in Hb; exact Hb|].
      exact (ltb_trans _ _ _ Hb Hu).
    + discriminate.
    + exact (IH _ _ _ _ Hres).
Qed.

Lemma running_best_only_improves_witness :
  ({| found := true; best_op_id := 1; best_op_name := "B";
      best_ave_time := ms_3_2;
      best_gb_per_sec := gb_per_sec_of num_bytes ms_3_2 |} = init_best \/
   F32.ltb ms_3_2 (best_ave_time init_best) = true) /\
  (found init_best = true -> true = true).
Proof.
  apply (running_best_only_improves unit aligned_in_main scenario_buffers
           scenario_ops 0%nat init_best tt
           {| found := true; best_op_id := 1; best_op_name := "B";
              best_ave_time := ms_3_2;
              best_gb_per_sec := gb_per_sec_of num_bytes ms_3_2 |}).
  vm_compute. reflexivity.
Defined.

(** ** The aligned strides, from the outcome of the loop *)

Lemma set_at_inv {A} (l : list A) (i : Z) (v : A) l' :
  set_at l i v = Some l' ->
  0 <= i < Z.of_nat (length l) /\ l' = <[Z.to_nat i := v]> l.
Proof.
  unfold set_at. destruct (Z.leb_spec 0 i), (Z.ltb_spec i (Z.of_nat (length l)));
    simpl; intros Hs; try discriminate.
  injection Hs as <-. split; [lia|reflexivity].
Qed.

Lemma at_In {A} (l : list A) (i : Z) (v : A) : at_ l i = Some v -> In v l.
Proof.
  unfold at_. destruct (i <? 0); [discriminate|].
  intros H. apply list_elem_of_In. eapply list_elem_of_lookup_2, H.
Qed.

Lemma align_loop_inv ndebug lengths sbl sbs dims : forall i aligned aligned',
  0 <= i ->
  align_loop ndebug lengths sbl sbs dims i aligned = Some aligned' ->
  length aligned' = length aligned /\
  (forall k d, dims !! k = Some d ->
     0 <= d < Z.of_nat (length aligned) /\
     is_Some (at_ sbs (i + Z.of_nat k)) /\
     (ndebug = false ->
      exists v, at_ lengths d = Some v /\ at_ sbl (i + Z.of_nat k) = Some v)) /\
  (forall k d, dims !! k = Some d ->
     (forall k', (k < k')%nat -> dims !! k' <> Some d) ->
     at_ aligned' d = at_ sbs (i + Z.of_nat k)) /\
  (forall d, 0 <= d -> ~ In d dims -> at_ aligned' d = at_ aligned d) /\
  (forall n v, aligned' !! n = Some v -> aligned !! n = Some v \/ In v sbs) /\
  align_loop true lengths sbl sbs dims i aligned = Some aligned'.
Proof.
  induction dims as [|dim rest IH]; intros i aligned aligned' Hi Hloop.
  - injection Hloop as <-.
    split; [reflexivity|split; [|split; [|split; [|split]]]]; auto.
    + intros k d Hk. rewrite lookup_nil in Hk. discriminate.
    + intros k d Hk. rewrite lookup_nil in Hk. discriminate.
  - cbn [align_loop] in Hloop.
    destruct (assert_same_length ndebug lengths sbl dim i) as [[]|] eqn:Ha;
      [|discriminate].
    destruct (at_ sbs i) as [st|] eqn:Hst; [|discriminate].
    cbn [mbind option_bind] in Hloop.
    destruct (set_at aligned dim st) as [aligned1|] eqn:Hset; [|discriminate].
    cbn [mbind option_bind] in Hloop.
    apply set_at_inv in Hset as [Hdim ->].
    destruct (IH (i + 1) _ _ ltac:(lia) Hloop)
      as (Hlen & Hok & Hlast & Hkeep & Hent & Htrue).
    rewrite length_insert in Hlen, Hok.
    split; [exact Hlen|split; [|split; [|split; [|split]]]].
    + intros [|k] d Hk.
      * injection Hk as <-. rewrite Z.add_0_r, Hst.
        split; [exact Hdim|split; [eauto|]].
        intros ->. unfold assert_same_length in Ha.
        destruct (at_ lengths dim) as [xl|]; [|discriminate].
        destruct (at_ sbl i) as [sl|]; [|discriminate].
        cbn [mbind option_bind] in Ha.
        destruct (Z.eqb_spec xl sl); [|discriminate]. subst. eauto.
      * replace (i + Z.of_nat (S k)) with (i + 1 + Z.of_nat k) by lia.
        now apply Hok.
    + intros [|k] d Hk Hlater.
      * injection Hk as <-. rewrite Z.add_0_r, Hst.
        rewrite Hkeep; [|lia|].
        -- rewrite at_nonneg by lia. apply list_lookup_insert_eq. lia.
        -- intros Hin. apply list_elem_of_In, list_elem_of_lookup_1 in Hin
             as [k' Hk'].
           apply (Hlater (S k')); [lia|exact Hk'].
      * replace (i + Z.of_nat (S k)) with (i + 1 + Z.of_nat k) by lia.
        apply Hlast; [exact Hk|].
        intros k' Hlt. apply (Hlater (S k')). lia.
    + intros d Hd Hnot. rewrite Hkeep; [|exact Hd|intros H; apply Hnot; now right].
      rewrite !at_nonneg by lia. apply list_lookup_insert_ne.
      intros E. apply Hnot. left. lia.
    + intros n v Hn. destruct (Hent n v Hn) as [H|H]; [|now right].
      apply list_lookup_insert_Some in H as [(_ & <- & _)|[_ H]]; [|now left].
      right. eapply at_In, Hst.
    + cbn [align_loop]. unfold assert_same_length at 1. rewrite Hst.
      cbn [mbind option_bind]. rewrite set_at_Some by exact Hdim. exact Htrue.
Qed.



(** X14. Defining [NDEBUG] does not change the array the loop builds: when
    the loop runs to its end with the assertion compiled in, it builds the
    same array with the assertion compiled out. *)
Theorem align_strides_ndebug rank lengths sbmvLengths sbmvStrides dims aligned :
  align_strides false rank lengths sbmvLengths sbmvStrides dims = Some aligned ->
  align_strides true rank lengths sbmvLengths sbmvStrides dims = Some aligned.
Proof.
  unfold align_strides. intros Hloop.
  now destruct (align_loop_inv _ _ _ _ _ _ _ _ (Z.le_refl 0) Hloop)
    as (_ & _ & _ & _ & _ & H).
Qed.

Lemma align_strides_ndebug_witness :
  aligned_scaleBiasMeanVarStrides true = Some aligned_in_main.
Proof.
  apply (align_strides_ndebug Rank xyLengths scaleBiasMeanVarLengths
           scaleBiasMeanVarStrides invariantDims aligned_in_main).
  reflexivity.
Defined.

(** X15. The array the loop builds has one entry per dimension of the rank,
    and every entry is 0 or one of the given strides; when a dimension is
    listed more than once, the stride at its last position in the list is the
    one that stays, and a dimension that is not listed keeps 0. *)
Theorem align_strides_entries ndebug rank lengths sbmvLengths sbmvStrides dims aligned :
  align_strides ndebug rank lengths sbmvLengths sbmvStrides dims = Some aligned ->
  length aligned = Z.to_nat rank /\
  (forall v, In v aligned -> v = 0 \/ In v sbmvStrides) /\
  (forall k d, dims !! k = Some d ->
     (forall k', (k < k')%nat -> dims !! k' <> Some d) ->
     at_ aligned d = sbmvStrides !! k) /\
  (forall d, 0 <= d < rank -> ~ In d dims -> at_ aligned d = Some 0).
Proof.
  unfold align_strides. intros Hloop.
  destruct (align_loop_inv _ _ _ _ _ _ _ _ (Z.le_refl 0) Hloop)
    as (Hlen & Hok & Hlast & Hkeep & Hent & _).
  rewrite length_replicate in Hlen.
  split; [exact Hlen|split; [|split]].
  - intros v Hin. apply list_elem_of_In, list_elem_of_lookup_1 in Hin as [n Hn].
    destruct (Hent n v Hn) as [H|H]; [|now right].
    apply lookup_replicate in H as [-> _]. now left.
  - intros k d Hk Hl. rewrite (Hlast k d Hk Hl), Z.add_0_l.
    rewrite at_nonneg by lia. now rewrite Nat2Z.id.
  - intros d Hd Hnot. rewrite Hkeep by (lia || assumption).
    rewrite at_nonneg by lia. apply lookup_replicate_2. lia.
Qed.

Lemma align_strides_entries_witness :
  length [0; 7; 0; 0] = Z.to_nat 4 /\
  (forall v, In v [0; 7; 0; 0] -> v = 0 \/ In v [5; 7]) /\
  (forall k d, [1; 1] !! k = Some d ->
     (forall k', (k < k')%nat -> [1; 1] !! k' <> Some d) ->
     at_ [0; 7; 0; 0] d = [5; 7] !! k) /\
  (forall d, 0 <= d < 4 -> ~ In d [1; 1] -> at_ [0; 7; 0; 0] d = Some 0).
Proof.
  apply (align_strides_entries true 4 [16; 8; 128; 256] [8; 8] [5; 7] [1; 1]
           [0; 7; 0; 0]).
  reflexivity.
Defined.
